(** * sistemaibiphb: the reconciliation and ledger engine of [app.py]

    A shallow embedding of the Flask handlers of [src/app.py]: the Mercado
    Pago webhook ([mp_webhook]), the dashboard ([get_dashboard]), the
    member, transaction and expense routes ([manage_members],
    [manage_transactions], [manage_expenses]) and the monthly statement
    ([generate_report]).

    The PostgreSQL database is an explicit [store] value threaded through
    the handlers; a handler returns the new store, the HTTP response and the
    gateway lookups it made.  Amounts are [NUMERIC(10, 2)] columns and are
    kept as integer cents; Python floats are IEEE binary64 numbers and are
    kept as primitive floats.  A Python [str] and a text value of the
    database are kept as their UTF-8 encoding, one [ascii] per byte.

    A statement that raises in PostgreSQL (a text too long for its
    [VARCHAR] column, a number outside [NUMERIC(10, 2)] or [INTEGER], a
    sequence that has run out, a [NOT NULL] or [UNIQUE] violation) is
    modelled where it raises: the request is answered with status 500, or
    the webhook swallows the exception, and no row is written.  The body of
    a webhook delivery is any JSON value; the bodies of the other routes
    are JSON objects holding the keys their handler reads. *)

From Stdlib Require Import ZArith QArith Qround Lqa List String Ascii Bool Lia.
From Stdlib Require Import Floats Uint63 DecimalString.
Import ListNotations.

Open Scope string_scope.
Open Scope Z_scope.

(** ** Python values and built-ins used by the handlers *)

Module Py.

(** [str(n)] on an integer. *)
Definition str_int (n : Z) : string := NilZero.string_of_int (Z.to_int n).

(** A JSON field read with [d.get(key, '')] and then interpolated in an
    f-string: the key may be missing, hold [null], or hold a string. *)
Inductive field : Type :=
| Missing
| Null
| Str (s : string).

(** [d.get(key, '')] followed by [f"{...}"]: a missing key gives the
    default, [None] prints as ["None"]. *)
Definition get_fmt (f : field) : string :=
  match f with
  | Missing => EmptyString
  | Null => "None"
  | Str s => s
  end.

(** The number of bytes of the white-space character a byte sequence
    begins with, or [0] when it begins with none.  [str.strip()] removes
    U+0009-000D, U+001C-0020, U+0085, U+00A0, U+1680, U+2000-200A, U+2028,
    U+2029, U+202F, U+205F and U+3000; these are their UTF-8 encodings. *)
Definition ascii_space (b : N) : bool :=
  ((9 <=? b) && (b <=? 13) || (28 <=? b) && (b <=? 32))%N.

Definition general_punctuation_space (b : N) : bool :=
  ((128 <=? b) && (b <=? 138) || (b =? 168) || (b =? 169) || (b =? 175))%N.

Definition space_width (l : list N) : nat :=
  match l with
  | [] => 0
  | b :: r =>
      if ascii_space b then 1
      else match b, r with
           | 194%N, d :: _ => if ((d =? 133) || (d =? 160))%N then 2 else 0
           | 225%N, 154%N :: 128%N :: _ => 3
           | 226%N, 128%N :: d :: _ => if general_punctuation_space d then 3 else 0
           | 226%N, 129%N :: 159%N :: _ => 3
           | 227%N, 128%N :: 128%N :: _ => 3
           | _, _ => 0
           end
  end%nat.

(** The same for the character a sequence ends with, read backwards. *)
Definition space_width_rev (l : list N) : nat :=
  match l with
  | [] => 0
  | b :: r =>
      if ascii_space b then 1
      else match r with
           | 194%N :: _ => if ((b =? 133) || (b =? 160))%N then 2 else 0
           | 154%N :: 225%N :: _ => if (b =? 128)%N then 3 else 0
           | 128%N :: 226%N :: _ => if general_punctuation_space b then 3 else 0
           | 129%N :: 226%N :: _ => if (b =? 159)%N then 3 else 0
           | 128%N :: 227%N :: _ => if (b =? 128)%N then 3 else 0
           | _ => 0
           end
  end%nat.

(** Drop white-space characters from the front, as [width] finds them. *)
Fixpoint drop_spaces (width : list N -> nat) (fuel : nat) (l : list N) : list N :=
  match fuel with
  | O => l
  | S fuel' =>
      match width l with
      | O => l
      | w => drop_spaces width fuel' (skipn w l)
      end
  end.

Definition bytes (s : string) : list N := map N_of_ascii (list_ascii_of_string s).

Definition of_bytes (l : list N) : string :=
  string_of_list_ascii (map ascii_of_N l).

Definition lstrip (s : string) : string :=
  of_bytes (drop_spaces space_width (String.length s) (bytes s)).

Definition rstrip (s : string) : string :=
  of_bytes (rev (drop_spaces space_width_rev (String.length s) (rev (bytes s)))).

Definition strip (s : string) : string := rstrip (lstrip s).

(** A [dict] with string keys.  Iteration follows first insertion;
    assigning to a key that is present replaces its value in place. *)
Definition dict (V : Type) : Type := list (string * V).

Fixpoint setitem {V} (k : string) (v : V) (d : dict V) : dict V :=
  match d with
  | [] => [(k, v)]
  | (k', v') :: d' =>
      if String.eqb k' k then (k', v) :: d' else (k', v') :: setitem k v d'
  end.

Fixpoint getitem {V} (k : string) (d : dict V) : option V :=
  match d with
  | [] => None
  | (k', v') :: d' => if String.eqb k' k then Some v' else getitem k d'
  end.

Definition keys {V} (d : dict V) : list string := map fst d.

(** [round(x)] to an integer: nearest, ties to even. *)
Definition round (x : Q) : Z :=
  let f := Qfloor x in
  match (x - inject_Z f ?= 1 # 2)%Q with
  | Lt => f
  | Gt => f + 1
  | Eq => if Z.even f then f else f + 1
  end.

(** [sum(xs)] on floats.  The language reference adds left to right from
    the integer [0]; CPython 3.12 and later add floats with Neumaier's
    compensation and fold the correction in at the end. *)
Inductive sum_algorithm : Type :=
| left_to_right
| compensated.

Definition zero : float := PrimFloat.of_uint63 0%uint63.

Definition is_finite (x : float) : bool :=
  match Prim2SF x with
  | S754_zero _ | S754_finite _ _ _ => true
  | _ => false
  end.

Definition is_zero (x : float) : bool :=
  match Prim2SF x with
  | S754_zero _ => true
  | _ => false
  end.

Definition neumaier_step (st : float * float) (x : float) : float * float :=
  let '(r, c) := st in
  let t := PrimFloat.add r x in
  if PrimFloat.leb (PrimFloat.abs x) (PrimFloat.abs r)
  then (t, PrimFloat.add c (PrimFloat.add (PrimFloat.sub r t) x))
  else (t, PrimFloat.add c (PrimFloat.add (PrimFloat.sub x t) r)).

Definition sum (alg : sum_algorithm) (xs : list float) : float :=
  match alg with
  | left_to_right => fold_left PrimFloat.add xs zero
  | compensated =>
      let '(r, c) := fold_left neumaier_step xs (zero, zero) in
      if negb (is_zero c) && is_finite c then PrimFloat.add r c else r
  end.

End Py.

(** ** Fixed-point amounts, floats and their two-decimal rendering *)

(** [float(d)] for a [Decimal] holding [c] cents: the binary64 number
    nearest to [c / 100].  The quotient of two exactly represented integers
    is correctly rounded, and a [NUMERIC(10, 2)] value has fewer than
    [10 ^ 10] cents. *)
Definition float_of_cents (c : Z) : float :=
  let q (n : Z) :=
    PrimFloat.div (PrimFloat.of_uint63 (Uint63.of_Z n))
                  (PrimFloat.of_uint63 100%uint63) in
  if c <? 0 then PrimFloat.opp (q (- c)) else q c.

(** Nearest integer to [num / den], ties to even ([0 < den]). *)
Definition round_half_even (num den : Z) : Z :=
  let q := num / den in
  let r := num mod den in
  if den <? 2 * r then q + 1
  else if (2 * r =? den) && Z.odd q then q + 1
  else q.

(** What [f"{x:.2f}"] prints. *)
Inductive printed : Type :=
| PNan
| PInf (neg : bool)
| PFixed (neg : bool) (cents : Z).

(** The exact binary value of [x], correctly rounded to two decimals. *)
Definition round2 (x : float) : printed :=
  match Prim2SF x with
  | S754_nan => PNan
  | S754_infinity s => PInf s
  | S754_zero s => PFixed s 0
  | S754_finite s m e =>
      PFixed s (if 0 <=? e then Zpos m * 2 ^ e * 100
                else round_half_even (Zpos m * 100) (2 ^ (- e)))
  end.

(** The number a printed amount denotes, in cents. *)
Definition printed_cents (p : printed) : option Z :=
  match p with
  | PFixed neg c => Some (if neg then - c else c)
  | _ => None
  end.

Definition pad2 (n : Z) : string :=
  if n <? 10 then "0" ++ Py.str_int n else Py.str_int n.

Definition show_printed (p : printed) : string :=
  match p with
  | PNan => "nan"
  | PInf neg => if neg then "-inf" else "inf"
  | PFixed neg c =>
      (if neg then "-" else EmptyString) ++ Py.str_int (c / 100) ++ "." ++ pad2 (c mod 100)
  end.

Definition fmt2 (x : float) : string := show_printed (round2 x).

(** ** The three relations created by [create_tables] *)

(** [DATE] and [TIMESTAMP] values; [EXTRACT(MONTH FROM ...)] and
    [EXTRACT(YEAR FROM ...)] read the fields. *)
Record date : Type := mkDate { year : Z; month : Z; day : Z }.

Record timestamp : Type := mkTimestamp { on_day : date; seconds : Z }.

(** [strftime("%d/%m/%Y")]. *)
Definition strftime_dmY (d : date) : string :=
  pad2 (day d) ++ "/" ++ pad2 (month d) ++ "/" ++ Py.str_int (year d).

(** The only two values the handlers ever write to [transactions.status]. *)
Inductive status : Type :=
| pendente
| confirmado.

Definition status_eqb (a b : status) : bool :=
  match a, b with
  | pendente, pendente | confirmado, confirmado => true
  | _, _ => false
  end.

(** The only two values the handlers ever write to [transactions.origin]. *)
Inductive origin : Type :=
| pix
| manual.

Record member : Type := mkMember {
  m_id : Z;
  m_code : string;
  m_full_name : string;
  m_birth_date : option date
}.

(** A row of [transactions]; every column but [id] is nullable. *)
Record transaction : Type := mkTransaction {
  t_id : Z;
  t_mp_id : option string;
  t_payer_name : option string;
  t_member_id : option Z;
  t_amount : option Z;
  t_transaction_date : option timestamp;
  t_status : status;
  t_origin : origin;
  t_type : option string
}.

Record expense : Type := mkExpense {
  e_id : Z;
  e_description : string;
  e_category : option string;
  e_amount : Z;
  e_expense_date : option date
}.

(** The database.  Rows are listed in the order a scan without
    [ORDER BY] returns them; each [SERIAL] column has its sequence, which
    holds the last value handed out. *)
Record store : Type := mkStore {
  members : list member;
  transactions : list transaction;
  expenses : list expense;
  members_id_seq : Z;
  transactions_id_seq : Z;
  expenses_id_seq : Z
}.

Definition empty_store : store := mkStore [] [] [] 0 0 0.

Definition with_members (ms : list member) (seq : Z) (s : store) : store :=
  mkStore ms (transactions s) (expenses s)
          seq (transactions_id_seq s) (expenses_id_seq s).

Definition with_transactions (ts : list transaction) (seq : Z) (s : store) : store :=
  mkStore (members s) ts (expenses s)
          (members_id_seq s) seq (expenses_id_seq s).

Definition with_expenses (es : list expense) (seq : Z) (s : store) : store :=
  mkStore (members s) (transactions s) es
          (members_id_seq s) (transactions_id_seq s) seq.

Definition option_eqb {A} (eqb : A -> A -> bool) (a b : option A) : bool :=
  match a, b with
  | Some x, Some y => eqb x y
  | None, None => true
  | _, _ => false
  end.

(** *** Values as PostgreSQL accepts them *)

(** A value a [NUMERIC(10, 2)] column accepts, in cents; anything larger
    makes the statement fail with a numeric overflow. *)
Definition fits_numeric_10_2 (c : Z) : bool := Z.abs c <? 10 ^ 10.

(** The range of an [INTEGER] column, which is what [SERIAL] declares. *)
Definition int4_max : Z := 2147483647.

Definition in_int4 (i : Z) : bool := (- 2147483648 <=? i) && (i <=? int4_max).

(** [nextval] of the sequence of a [SERIAL] column, given its last value:
    past the largest [INTEGER] it raises and the sequence stays put. *)
Definition nextval (last : Z) : option Z :=
  if last <? int4_max then Some (last + 1) else None.

(** An id given as text (a query-string parameter), as the integer input
    of PostgreSQL reads it. *)
Inductive int4_text : Type :=
| not_an_integer
| integer (i : Z).

(** A byte that continues a UTF-8 character. *)
Definition is_continuation (c : ascii) : bool :=
  let b := N_of_ascii c in ((128 <=? b) && (b <? 192))%N.

(** The number of characters of a text. *)
Fixpoint char_length (s : string) : nat :=
  match s with
  | EmptyString => O
  | String c r => if is_continuation c then char_length r else S (char_length r)
  end.

(** The first [n] characters of a text, and what follows them. *)
Fixpoint take_chars (n : nat) (s : string) : string :=
  match s with
  | EmptyString => EmptyString
  | String c r =>
      if is_continuation c then String c (take_chars n r)
      else match n with
           | O => EmptyString
           | S n' => String c (take_chars n' r)
           end
  end.

Fixpoint drop_chars (n : nat) (s : string) : string :=
  match s with
  | EmptyString => EmptyString
  | String c r =>
      if is_continuation c then drop_chars n r
      else match n with
           | O => s
           | S n' => drop_chars n' r
           end
  end.

Fixpoint all_bytes (p : ascii -> bool) (s : string) : bool :=
  match s with
  | EmptyString => true
  | String c r => p c && all_bytes p r
  end.

(** A string parameter stored in a [VARCHAR(n)] column: the value kept, or
    [None] when the statement raises.  The driver refuses a string with a
    NUL character; the server refuses a text longer than [n] characters
    unless the excess is all spaces, which it cuts off. *)
Definition varchar (n : nat) (s : string) : option string :=
  if negb (all_bytes (fun c => negb (N_of_ascii c =? 0)%N) s) then None
  else if (char_length s <=? n)%nat then Some s
  else if all_bytes (fun c => (N_of_ascii c =? 32)%N) (drop_chars n s)
       then Some (take_chars n s)
  else None.

(** The same for a parameter that may be [None], stored as [NULL]. *)
Definition varchar_opt (n : nat) (o : option string) : option (option string) :=
  match o with
  | None => Some None
  | Some s => option_map Some (varchar n s)
  end.

(** Does a row already carry this [mp_id]?  ([UNIQUE] ignores [NULL].) *)
Definition has_mp_id (x : string) (ts : list transaction) : bool :=
  existsb (fun t => option_eqb String.eqb (t_mp_id t) (Some x)) ts.

(** [INSERT INTO transactions ... ON CONFLICT (mp_id) DO NOTHING] with the
    values of the webhook: [None] when the statement raises (a text or an
    amount that does not fit its column, an exhausted sequence).  The
    sequence is advanced for the candidate row before the conflict is
    detected, so a skipped insert still consumes an id. *)
Definition insert_transaction_on_conflict_do_nothing
    (mp : string) (payer : string) (mid : option Z) (amount : Z)
    (d : option timestamp) (s : store) : option store :=
  match varchar 50 mp, varchar 255 payer with
  | Some mp', Some payer' =>
      if fits_numeric_10_2 amount then
        match nextval (transactions_id_seq s) with
        | Some id =>
            if has_mp_id mp' (transactions s)
            then Some (with_transactions (transactions s) id s)
            else Some (with_transactions
                         (transactions s ++
                            [mkTransaction id (Some mp') (Some payer') mid (Some amount) d
                                           pendente pix None])%list
                         id s)
        | None => None
        end
      else None
  | _, _ => None
  end.

(** ** Mercado Pago: notifications and the payment lookup *)

(** The value under [data["data"]["id"]]: Mercado Pago sends it as a number
    or as a string; any other JSON value is given by its truth value and by
    what [str] makes of it. *)
Inductive payment_id : Type :=
| IdInt (n : Z)
| IdStr (s : string)
| IdOther (truth : bool) (repr : string).

(** [not payment_id] is false for these. *)
Definition truthy (p : payment_id) : bool :=
  match p with
  | IdInt n => negb (n =? 0)
  | IdStr s => negb (String.eqb s EmptyString)
  | IdOther truth _ => truth
  end.

(** [str(payment_id)]. *)
Definition str (p : payment_id) : string :=
  match p with
  | IdInt n => Py.str_int n
  | IdStr s => s
  | IdOther _ repr => repr
  end.

(** What [data.get("data", {})] finds: no such key, a JSON object with
    its ["id"] ([None] when absent or [null]), or any other JSON value, on
    which [.get("id")] raises. *)
Inductive data_field : Type :=
| data_absent
| data_object (id : option payment_id)
| data_other.

(** A JSON object posted to the webhook, as far as the handler reads it:
    [data.get("type")] and [data.get("action")], [None] unless they hold
    a string, and the ["data"] field.  Extra fields are never looked at. *)
Record notification : Type := mkNotification {
  n_type : option string;
  n_action : option string;
  n_data : data_field
}.

(** The id a notification carries in a well-shaped ["data"] field. *)
Definition n_data_id (n : notification) : option payment_id :=
  match n_data n with
  | data_object id => id
  | data_absent | data_other => None
  end.

(** [request.json]: a JSON object, or any other JSON value, on which
    [data.get] raises. *)
Inductive webhook_body : Type :=
| json_other
| json_object (n : notification).

Coercion json_object : notification >-> webhook_body.

(** The ["response"] of [sdk.payment().get(id)], as far as it is read;
    the amount is in cents, as the [NUMERIC(10, 2)] column will hold it. *)
Record payment : Type := mkPayment {
  p_status : string;
  p_first_name : Py.field;
  p_last_name : Py.field;
  p_transaction_amount : Z;
  p_date_created : option timestamp
}.

(** The SDK client: [None] stands for any exception raised while fetching
    or reading the payment (network failure, missing key). *)
Definition gateway : Type := payment_id -> option payment.

(** What surrounds one request: the module-level [sdk] ([None] without
    [MP_ACCESS_TOKEN]), whether [get_db_connection] succeeds, the
    database clock, and the interpreter's float summation. *)
Record env : Type := mkEnv {
  sdk : option gateway;
  db_up : bool;
  CURRENT_DATE : date;
  NOW : timestamp;
  float_sum : Py.sum_algorithm
}.

(** ** HTTP responses *)

(** One call on the [FPDF] object that puts text on the page; fonts,
    colours, borders and alignment are left to the renderer. *)
Inductive pdf_op : Type :=
| add_page
| cell (w h : Z) (txt : string)
| cell_ln (w h : Z) (txt : string)
| ln (h : option Z).

Inductive body : Type :=
| JError (error : string)
| JStatus (st : string) (reason : option string)
| JMsg (msg : string)
| JDashboard (inflow outflow balance : Z)
| JRows
| Html (template : string)
| PdfFile (file_name : string) (pdf : list pdf_op)
| Unhandled.

(** [JDashboard] carries the three [Decimal] values in cents, each passed
    through [float] on its way into the JSON object; [JRows] is a listing,
    whose rows are not needed here.  [Unhandled] with code 500 is what Flask
    answers when an exception leaves the view function. *)
Record response : Type := mkResponse { code : Z; payload : body }.

Definition server_error : response := mkResponse 500 Unhandled.

(** The result of handling one request: the database afterwards, the
    answer, and the payment lookups sent to the gateway, in order. *)
Record outcome : Type := mkOutcome {
  after : store;
  answer : response;
  lookups : list payment_id
}.

Section App.

(** The score [process.extractOne] computes for a query and a choice
    with its default processor and scorer, before rounding: [thefuzz]
    is a dependency, not part of this repository. *)
Variable scorer : string -> string -> Q.

(** *** Fuzzy match *)

(** The running best of [extractOne] with [score_cutoff=0]: a choice
    replaces the best so far only with a strictly higher score. *)
Definition keep_best (q : string) (best : option (string * Q)) (k : string)
  : option (string * Q) :=
  let sc := scorer q k in
  if Qle_bool 0 sc then
    match best with
    | None => Some (k, sc)
    | Some (_, b) => if Qle_bool sc b then best else Some (k, sc)
    end
  else best.

(** [process.extractOne(query, choices)] over a sequence of choices: the
    choice and its score as [int(round(score))], or [None]. *)
Definition extractOne (q : string) (choices : list string) : option (string * Z) :=
  match fold_left (keep_best q) choices None with
  | Some (k, sc) => Some (k, Py.round sc)
  | None => None
  end.

(** [{m['full_name']: m['id'] for m in members}]. *)
Definition choices_of (ms : list member) : Py.dict Z :=
  fold_left (fun d m => Py.setitem (m_full_name m) (m_id m) d) ms [].

(** Lines 125-132 of [mp_webhook]: the member a payer name is linked to. *)
Definition best_match_id (payer_name : string) (ms : list member) : option Z :=
  match ms with
  | [] => None
  | _ :: _ =>
      let choices := choices_of ms in
      match extractOne payer_name (Py.keys choices) with
      | Some (name, sc) =>
          if 85 <=? sc then Py.getitem name choices else None
      | None => None
      end
  end.

(** *** [POST /webhook/mercadopago] *)

Definition is_payment_event (n : notification) : bool :=
  option_eqb String.eqb (n_type n) (Some "payment")
  || option_eqb String.eqb (n_action n) (Some "payment.created").

Definition ok : response := mkResponse 200 (JStatus "ok" None).

Definition payer_name_of (p : payment) : string :=
  Py.strip (Py.get_fmt (p_first_name p) ++ " " ++ Py.get_fmt (p_last_name p)).

Definition ignored : response :=
  mkResponse 200 (JStatus "ignored" (Some "no id found")).

(** The body of the [try] once the payment has been fetched.  Every
    exception in it is caught by the handler, so a database that cannot
    be reached or an [INSERT] that raises leaves the store as it was. *)
Definition record_payment (e : env) (pid : payment_id) (p : payment) (s : store)
  : store :=
  if String.eqb (p_status p) "approved" then
    if db_up e then
      match insert_transaction_on_conflict_do_nothing
              (str pid) (payer_name_of p)
              (best_match_id (payer_name_of p) (members s))
              (p_transaction_amount p) (p_date_created p) s with
      | Some s' => s'
      | None => s
      end
    else s
  else s.

(** Lines 96-98 run outside the [try]: a body that is not a JSON object,
    or a payment event whose ["data"] is neither absent nor an object,
    raises there and Flask answers 500. *)
Definition mp_webhook (e : env) (b : webhook_body) (s : store) : outcome :=
  match sdk e with
  | None => mkOutcome s (mkResponse 500 (JError "SDK não configurado")) []
  | Some gw =>
      match b with
      | json_other => mkOutcome s server_error []
      | json_object n =>
          if is_payment_event n then
            match n_data n with
            | data_other => mkOutcome s server_error []
            | data_absent | data_object None => mkOutcome s ignored []
            | data_object (Some pid) =>
                if truthy pid then
                  match gw pid with
                  | Some p => mkOutcome (record_payment e pid p s) ok [pid]
                  | None => mkOutcome s ok [pid]
                  end
                else mkOutcome s ignored []
            end
          else mkOutcome s ok []
      end
  end.

(** *** [GET /api/dashboard] *)

(** [SELECT SUM(amount)]: [NULL] amounts are skipped, and the handler
    turns a [NULL] or zero total into [0]. *)
Definition sum_amounts (l : list (option Z)) : Z :=
  fold_right (fun a acc => match a with Some c => c + acc | None => acc end) 0 l.

Definition month_of (d : option timestamp) : option Z :=
  option_map (fun t => month (on_day t)) d.

Definition year_of (d : option timestamp) : option Z :=
  option_map (fun t => year (on_day t)) d.

(** The [WHERE] clause of the first query of [get_dashboard]. *)
Definition dashboard_inflow_row (today : date) (t : transaction) : bool :=
  status_eqb (t_status t) confirmado
  && option_eqb Z.eqb (month_of (t_transaction_date t)) (Some (month today)).

(** The [WHERE] clause of the second query of [get_dashboard]. *)
Definition dashboard_outflow_row (today : date) (x : expense) : bool :=
  option_eqb Z.eqb (option_map month (e_expense_date x)) (Some (month today)).

Definition dashboard_inflow (today : date) (s : store) : Z :=
  sum_amounts (map t_amount (filter (dashboard_inflow_row today) (transactions s))).

Definition dashboard_outflow (today : date) (s : store) : Z :=
  sum_amounts (map (fun x => Some (e_amount x))
                   (filter (dashboard_outflow_row today) (expenses s))).

Definition get_dashboard (e : env) (s : store) : outcome :=
  if db_up e then
    let inflow := dashboard_inflow (CURRENT_DATE e) s in
    let outflow := dashboard_outflow (CURRENT_DATE e) s in
    mkOutcome s (mkResponse 200 (JDashboard inflow outflow (inflow - outflow))) []
  else mkOutcome s server_error [].

(** *** [/api/members] *)

(** A [POST] carries the three keys of its JSON body, each a string or
    [null]; a [DELETE] carries the [id] of the query string, if any. *)
Inductive members_request : Type :=
| members_GET
| members_POST (code full_name : option string) (birth_date : option date)
| members_DELETE (id : option int4_text).

(** [ON DELETE SET NULL] on [transactions.member_id]. *)
Definition set_null_member (id : Z) (t : transaction) : transaction :=
  if option_eqb Z.eqb (t_member_id t) (Some id)
  then mkTransaction (t_id t) (t_mp_id t) (t_payer_name t) None (t_amount t)
                     (t_transaction_date t) (t_status t) (t_origin t) (t_type t)
  else t.

Definition delete_member (id : Z) (s : store) : store :=
  mkStore (filter (fun m => negb (m_id m =? id)) (members s))
          (map (set_null_member id) (transactions s))
          (expenses s)
          (members_id_seq s) (transactions_id_seq s) (expenses_id_seq s).

(** A text that does not fit its column, a number out of range and an
    exhausted sequence make the statement raise before any row is formed.
    An [INSERT] that violates [UNIQUE] or [NOT NULL] raises after it drew
    its id: no row is added, but the sequence value is not given back.
    Whatever raises leaves the view function, and Flask answers 500. *)
Definition manage_members (e : env) (r : members_request) (s : store) : outcome :=
  if db_up e then
    match r with
    | members_GET => mkOutcome s (mkResponse 200 JRows) []
    | members_POST c n b =>
        match varchar_opt 10 c, varchar_opt 255 n, nextval (members_id_seq s) with
        | Some c', Some n', Some id =>
            match c', n' with
            | Some c'', Some n'' =>
                if existsb (fun m => String.eqb (m_code m) c'') (members s)
                then mkOutcome (with_members (members s) id s) server_error []
                else mkOutcome
                       (with_members (members s ++ [mkMember id c'' n'' b])%list id s)
                       (mkResponse 200 (JMsg "Membro adicionado")) []
            | _, _ => mkOutcome (with_members (members s) id s) server_error []
            end
        | _, _, _ => mkOutcome s server_error []
        end
    | members_DELETE (Some (integer id)) =>
        if in_int4 id
        then mkOutcome (delete_member id s) (mkResponse 200 (JMsg "Membro removido")) []
        else mkOutcome s server_error []
    | members_DELETE (Some not_an_integer) => mkOutcome s server_error []
    | members_DELETE None =>
        mkOutcome s (mkResponse 200 (JMsg "Membro removido")) []
    end
  else mkOutcome s server_error [].

(** *** [/api/transactions] *)

(** The JSON body of a [POST]: [data.get('action')] selects the branch;
    any other action changes nothing and still answers ["Sucesso"].  The
    keys read hold a string, a number or [null]; an id is a JSON number,
    which the database compares as a number of any size. *)
Inductive transactions_request : Type :=
| transactions_GET
| confirm (type : option string) (id : option Z)
| manual_add (name : option string) (amount : option Z) (type : option string)
| other_action.

(** [UPDATE transactions SET type = %s, status = 'confirmado'
    WHERE id = %s] on one row. *)
Definition confirm_row (ty : option string) (id : Z) (t : transaction) : transaction :=
  if t_id t =? id
  then mkTransaction (t_id t) (t_mp_id t) (t_payer_name t) (t_member_id t)
                     (t_amount t) (t_transaction_date t) confirmado (t_origin t) ty
  else t.

Definition sucesso : response := mkResponse 200 (JMsg "Sucesso").

(** The category of a confirmation is checked against its column when
    the [UPDATE] is read, whether or not a row has the id. *)
Definition manage_transactions (e : env) (r : transactions_request) (s : store)
  : outcome :=
  if db_up e then
    match r with
    | transactions_GET => mkOutcome s (mkResponse 200 JRows) []
    | confirm ty id =>
        match varchar_opt 20 ty with
        | Some ty' =>
            match id with
            | Some id' =>
                mkOutcome (with_transactions (map (confirm_row ty' id') (transactions s))
                                             (transactions_id_seq s) s)
                          sucesso []
            | None => mkOutcome s sucesso []
            end
        | None => mkOutcome s server_error []
        end
    | manual_add name amount ty =>
        match varchar_opt 255 name, varchar_opt 20 ty with
        | Some name', Some ty' =>
            if match amount with Some c => fits_numeric_10_2 c | None => true end
            then match nextval (transactions_id_seq s) with
                 | Some id =>
                     mkOutcome
                       (with_transactions
                          (transactions s ++
                             [mkTransaction id None name' None amount (Some (NOW e))
                                            confirmado manual ty'])%list
                          id s)
                       sucesso []
                 | None => mkOutcome s server_error []
                 end
            else mkOutcome s server_error []
        | _, _ => mkOutcome s server_error []
        end
    | other_action => mkOutcome s sucesso []
    end
  else mkOutcome s server_error [].

(** *** [/api/expenses] *)

Inductive expenses_request : Type :=
| expenses_GET
| expenses_POST (description category : option string) (amount : option Z)
                (date : option date)
| expenses_DELETE (id : option int4_text).

Definition delete_expense (id : Z) (s : store) : store :=
  with_expenses (filter (fun x => negb (e_id x =? id)) (expenses s))
                (expenses_id_seq s) s.

Definition manage_expenses (e : env) (r : expenses_request) (s : store) : outcome :=
  if db_up e then
    match r with
    | expenses_GET => mkOutcome s (mkResponse 200 JRows) []
    | expenses_POST d c a dt =>
        match varchar_opt 255 d, varchar_opt 100 c with
        | Some d', Some c' =>
            if match a with Some a' => fits_numeric_10_2 a' | None => true end
            then match nextval (expenses_id_seq s) with
                 | Some id =>
                     match d', a with
                     | Some d'', Some a' =>
                         mkOutcome
                           (with_expenses (expenses s ++ [mkExpense id d'' c' a' dt])%list
                                          id s)
                           (mkResponse 200 (JMsg "Despesa salva")) []
                     | _, _ => mkOutcome (with_expenses (expenses s) id s) server_error []
                     end
                 | None => mkOutcome s server_error []
                 end
            else mkOutcome s server_error []
        | _, _ => mkOutcome s server_error []
        end
    | expenses_DELETE (Some (integer id)) =>
        if in_int4 id
        then mkOutcome (delete_expense id s) (mkResponse 200 (JMsg "Despesa removida")) []
        else mkOutcome s server_error []
    | expenses_DELETE (Some not_an_integer) => mkOutcome s server_error []
    | expenses_DELETE None =>
        mkOutcome s (mkResponse 200 (JMsg "Despesa removida")) []
    end
  else mkOutcome s server_error [].

(** *** [POST /api/report/final] *)

(** A row of the first query: [t.amount, t.transaction_date, t.type,
    m.code], the last one [NULL] when the [LEFT JOIN] finds no member. *)
Record inflow_row : Type := mkInflowRow {
  i_amount : option Z;
  i_transaction_date : option timestamp;
  i_type : option string;
  i_code : option string
}.

Definition member_code (s : store) (mid : option Z) : option string :=
  match mid with
  | Some id => option_map m_code (find (fun m => m_id m =? id) (members s))
  | None => None
  end.

Definition report_inflow_row (mo yr : Z) (t : transaction) : bool :=
  status_eqb (t_status t) confirmado
  && option_eqb Z.eqb (month_of (t_transaction_date t)) (Some mo)
  && option_eqb Z.eqb (year_of (t_transaction_date t)) (Some yr).

Definition report_outflow_row (mo yr : Z) (x : expense) : bool :=
  option_eqb Z.eqb (option_map month (e_expense_date x)) (Some mo)
  && option_eqb Z.eqb (option_map year (e_expense_date x)) (Some yr).

Definition select_inflows (mo yr : Z) (s : store) : list inflow_row :=
  map (fun t => mkInflowRow (t_amount t) (t_transaction_date t) (t_type t)
                            (member_code s (t_member_id t)))
      (filter (report_inflow_row mo yr) (transactions s)).

Definition select_outflows (mo yr : Z) (s : store) : list expense :=
  filter (report_outflow_row mo yr) (expenses s).

(** [[float(i['amount']) for i in inflows]]: [float(None)] raises. *)
Fixpoint floats_of (l : list (option Z)) : option (list float) :=
  match l with
  | [] => Some []
  | Some c :: l' => option_map (cons (float_of_cents c)) (floats_of l')
  | None :: l' => None
  end.

(** Lines 301-303: the three numbers of the statement. *)
Record totals : Type := mkTotals {
  total_in : float;
  total_out : float;
  final_balance : float
}.

Definition report_totals (alg : Py.sum_algorithm) (prev_balance : float)
    (inflows : list inflow_row) (outflows : list expense) : option totals :=
  match floats_of (map i_amount inflows) with
  | Some xs =>
      let total_in := Py.sum alg xs in
      let total_out := Py.sum alg (map (fun o => float_of_cents (e_amount o)) outflows) in
      Some (mkTotals total_in total_out
                     (PrimFloat.sub (PrimFloat.add prev_balance total_in) total_out))
  | None => None
  end.

Definition money (x : float) : string := "R$ " ++ fmt2 x.

(** The summary block, lines 315-319. *)
Definition summary_block (prev_balance : float) (t : totals) : list pdf_op :=
  [ cell_ln 0 10 ("Saldo Mes Anterior: " ++ money prev_balance);
    cell_ln 0 10 ("(+) Total Entradas: " ++ money (total_in t));
    cell_ln 0 10 ("(-) Total Saidas: " ++ money (total_out t));
    cell_ln 0 10 ("(=) Saldo a Transportar: " ++ money (final_balance t)) ].

(** One pass of the loop over [inflows]; a [NULL] type cannot be drawn
    and raises, like a [NULL] amount or date would. *)
Definition inflow_cells (r : inflow_row) : option (list pdf_op) :=
  match i_transaction_date r, i_type r, i_amount r with
  | Some d, Some ty, Some a =>
      let c := match i_code r with
               | Some c' => if String.eqb c' EmptyString then "---" else c'
               | None => "---"
               end in
      Some [ cell 30 7 (strftime_dmY (on_day d)); cell 30 7 c; cell 30 7 ty;
             cell 40 7 (money (float_of_cents a)); ln None ]
  | _, _, _ => None
  end.

(** One pass of the loop over [outflows]. *)
Definition outflow_cells (o : expense) : list pdf_op :=
  let d := match e_expense_date o with
           | Some d' => strftime_dmY d'
           | None => "-"
           end in
  [ cell 30 7 d; cell 100 7 (e_description o);
    cell 40 7 (money (float_of_cents (e_amount o))); ln None ].

Fixpoint all_cells {A} (f : A -> option (list pdf_op)) (l : list A)
  : option (list pdf_op) :=
  match l with
  | [] => Some []
  | x :: l' =>
      match f x, all_cells f l' with
      | Some c, Some cs => Some (c ++ cs)%list
      | _, _ => None
      end
  end.

Definition inflow_header : list pdf_op :=
  [ ln (Some 10); cell_ln 0 10 "Detalhe - Entradas";
    cell 30 7 "Data"; cell 30 7 "Codigo"; cell 30 7 "Tipo"; cell 40 7 "Valor";
    ln None ].

Definition outflow_header : list pdf_op :=
  [ ln (Some 10); cell_ln 0 10 "Detalhe - Saidas";
    cell 30 7 "Data"; cell 100 7 "Descricao"; cell 40 7 "Valor"; ln None ].

Definition title (mo yr : Z) : list pdf_op :=
  [ add_page;
    cell_ln 0 10 ("Relatorio Financeiro - " ++ Py.str_int mo ++ "/" ++ Py.str_int yr);
    ln (Some 10) ].

(** Lines 305-355: the page, in the order the cells are written. *)
Definition compile_pdf (mo yr : Z) (prev_balance : float) (t : totals)
    (inflows : list inflow_row) (outflows : list expense) : option (list pdf_op) :=
  match all_cells inflow_cells inflows with
  | Some rows =>
      Some (title mo yr ++ summary_block prev_balance t
            ++ inflow_header ++ rows
            ++ outflow_header ++ List.concat (map outflow_cells outflows))%list
  | None => None
  end.

Definition file_name_of (mo yr : Z) : string :=
  "/tmp/relatorio_" ++ Py.str_int mo ++ "_" ++ Py.str_int yr ++ ".pdf".

Definition generate_report (e : env) (mo yr : Z) (prev_balance : float) (s : store)
  : outcome :=
  if db_up e then
    let inflows := select_inflows mo yr s in
    let outflows := select_outflows mo yr s in
    match report_totals (float_sum e) prev_balance inflows outflows with
    | Some t =>
        match compile_pdf mo yr prev_balance t inflows outflows with
        | Some pdf => mkOutcome s (mkResponse 200 (PdfFile (file_name_of mo yr) pdf)) []
        | None => mkOutcome s server_error []
        end
    | None => mkOutcome s server_error []
    end
  else mkOutcome s server_error [].

(** *** The application: every route, and runs of requests *)

Inductive request : Type :=
| GET_index
| POST_webhook_mercadopago (b : webhook_body)
| GET_api_dashboard
| api_members (r : members_request)
| api_transactions (r : transactions_request)
| api_expenses (r : expenses_request)
| POST_api_report_final (mo yr : Z) (prev_balance : float).

Definition handle (e : env) (r : request) (s : store) : outcome :=
  match r with
  | GET_index => mkOutcome s (mkResponse 200 (Html "index.html")) []
  | POST_webhook_mercadopago b => mp_webhook e b s
  | GET_api_dashboard => get_dashboard e s
  | api_members r' => manage_members e r' s
  | api_transactions r' => manage_transactions e r' s
  | api_expenses r' => manage_expenses e r' s
  | POST_api_report_final mo yr prev => generate_report e mo yr prev s
  end.

(** The store after a run of requests, each with its own surroundings. *)
Definition run (trace : list (env * request)) (s : store) : store :=
  fold_left (fun s' er => after (handle (fst er) (snd er) s')) trace s.

End App.

(** * Notions used in the statements *)

(** [w] is the member enumerated last among those named [k]. *)
Definition last_named (k : string) (w : member) (ms : list member) : Prop :=
  exists l1 l2,
    ms = (l1 ++ w :: l2)%list /\ m_full_name w = k /\
    forall x, In x l2 -> m_full_name x <> k.

(** The score [extractOne] reports for a choice. *)
Definition reported (scorer : string -> string -> Q) (q name : string) : Z :=
  Py.round (scorer q name).

(** The highest reported score over a roster [m :: ms]. *)
Definition max_score (scorer : string -> string -> Q) (q : string)
    (m : member) (ms : list member) : Z :=
  fold_left Z.max (map (fun x => reported scorer q (m_full_name x)) ms)
            (reported scorer q (m_full_name m)).

(** The rows carrying a given external id. *)
Definition rows_with_mp_id (x : string) (ts : list transaction) : list transaction :=
  filter (fun t => option_eqb String.eqb (t_mp_id t) (Some x)) ts.

(** The status of the transaction with a given id. *)
Definition status_of (i : Z) (s : store) : option status :=
  option_map t_status (find (fun t => t_id t =? i) (transactions s)).

(** A row update that keeps the keys and never un-confirms. *)
Definition keeps (f : transaction -> transaction) : Prop :=
  forall t, t_id (f t) = t_id t /\ t_mp_id (f t) = t_mp_id t
            /\ (t_status t = confirmado -> t_status (f t) = confirmado).

(** Every handler rewrites the existing rows in place with such an update
    and appends at most one row, numbered by the sequence and carrying an
    external id no earlier row has. *)
Inductive grows (s s' : store) : Prop :=
| grows_same (f : transaction -> transaction) :
    keeps f ->
    transactions s' = map f (transactions s) ->
    transactions_id_seq s <= transactions_id_seq s' ->
    grows s s'
| grows_add (f : transaction -> transaction) (t' : transaction) :
    keeps f ->
    transactions s' = (map f (transactions s) ++ [t'])%list ->
    t_id t' = transactions_id_seq s + 1 ->
    transactions_id_seq s' = transactions_id_seq s + 1 ->
    (forall x, t_mp_id t' = Some x -> has_mp_id x (transactions s) = false) ->
    grows s s'.

(** The [UNIQUE] constraint on [mp_id]. *)
Definition mp_id_unique (s : store) : Prop :=
  forall x, (List.length (rows_with_mp_id x (transactions s)) <= 1)%nat.

(** The primary key of [transactions]: ids are distinct and were all
    handed out by the sequence. *)
Definition ids_fresh (s : store) : Prop :=
  NoDup (map t_id (transactions s))
  /\ forall t, In t (transactions s) -> t_id t <= transactions_id_seq s.

(** One delivery of a notification, keeping only the store. *)
Definition deliver (scorer : string -> string -> Q) (e : env) (n : notification)
    (s : store) : store :=
  after (mp_webhook scorer e n s).

(** [member_id INTEGER REFERENCES members(id)]. *)
Definition references_hold (s : store) : Prop :=
  forall t i, In t (transactions s) -> t_member_id t = Some i ->
              exists m, In m (members s) /\ m_id m = i.

Module Demo.

(** A stand-in scorer: 100 for equal strings, 0 otherwise. *)
Definition exact (a b : string) : Q :=
  if String.eqb a b then inject_Z 100 else inject_Z 0.

Definition nov (d : Z) : date := mkDate 2026 11 d.

(** A gateway that knows one approved payment of 100.00. *)
Definition gw : gateway :=
  fun pid =>
    if String.eqb (str pid) "pay_1"
    then Some (mkPayment "approved" (Py.Str "Joao") (Py.Str "Silva") 10000
                         (Some (mkTimestamp (nov 3) 0)))
    else None.

Definition env_on (alg : Py.sum_algorithm) : env :=
  mkEnv (Some gw) true (nov 4) (mkTimestamp (nov 4) 0) alg.

Definition e : env := env_on Py.left_to_right.

Definition unconfigured : env :=
  mkEnv None true (nov 4) (mkTimestamp (nov 4) 0) Py.left_to_right.

Definition pay_1 : notification :=
  mkNotification (Some "payment") None (data_object (Some (IdStr "pay_1"))).

Definition joao : member := mkMember 1 "M01" "Joao Silva" None.

(** Two members registered under the same full name. *)
Definition ana_1 : member := mkMember 2 "M02" "Ana Lima" None.
Definition ana_2 : member := mkMember 3 "M03" "Ana Lima" None.

(** A notification for a payment the gateway does not know. *)
Definition pay_2 : notification :=
  mkNotification (Some "payment") None (data_object (Some (IdStr "pay_2"))).

(** A payment event whose ["data"] field is [null]. *)
Definition null_data : notification :=
  mkNotification (Some "payment") None data_other.

(** A roster of one member, whose name the payer of [pay_1] matches. *)
Definition roster : store :=
  after (manage_members e (members_POST (Some "M01") (Some "Joao Silva") None)
                        empty_store).

(** One manual tithe of 50.00, confirmed on entry with id 1. *)
Definition one_tithe : store :=
  after (manage_transactions e (manual_add (Some "Maria") (Some 5000) (Some "dizimo"))
                             empty_store).

End Demo.

(** A row with only its category replaced. *)
Definition recategorised (ty : option string) (t : transaction) : transaction :=
  mkTransaction (t_id t) (t_mp_id t) (t_payer_name t) (t_member_id t) (t_amount t)
                (t_transaction_date t) (t_status t) (t_origin t) ty.

(** The reading of C4: the delivery is answered with status 200. *)
Definition acknowledged (o : outcome) : Prop := code (answer o) = 200.

(** The reading of C6: the second confirmation changes no transaction, or
    it is answered with an error. *)
Definition noop_or_error (o : outcome) (s : store) : Prop :=
  transactions (after o) = transactions s \/ code (answer o) <> 200.

(** The reading of C9: the action is answered with an error. *)
Definition reports_not_found (o : outcome) : Prop := code (answer o) <> 200.

Module DemoDashboard.

(** The clock one year before [Demo.e]: 15 November 2025. *)
Definition last_year : env :=
  mkEnv (Some Demo.gw) true (mkDate 2025 11 15) (mkTimestamp (mkDate 2025 11 15) 0)
        Py.left_to_right.

(** An offering of 50.00 entered on 15 November 2025. *)
Definition old_offering : store :=
  after (manage_transactions last_year
           (manual_add (Some "Maria") (Some 5000) (Some "oferta")) empty_store).

End DemoDashboard.

Definition sum_cents (l : list Z) : Z := fold_right Z.add 0 l.

(** The reading of C3 on the statement: whenever the previous balance
    prints as [pc] cents, the closing balance prints as the fixed-point
    value [pc + inflow - outflow]. *)
Definition balance_exact_to_cents (alg : Py.sum_algorithm) (prev_balance : float)
    (inflows : list inflow_row) (outflows : list expense) : Prop :=
  forall t pc,
    report_totals alg prev_balance inflows outflows = Some t ->
    printed_cents (round2 prev_balance) = Some pc ->
    printed_cents (round2 (final_balance t))
    = Some (pc + sum_amounts (map i_amount inflows) - sum_cents (map e_amount outflows)).

Module DemoBalance.

(** One confirmed manual entry of the given amount, dated 4 November 2026. *)
Definition one_entry (cents : Z) : store :=
  after (manage_transactions Demo.e
           (manual_add (Some "Maria") (Some cents) (Some "oferta")) empty_store).

(** A previous balance of 10 ^ 16, an integer a float holds exactly. *)
Definition huge : float := PrimFloat.of_uint63 10000000000000000%uint63.

End DemoBalance.

(** The sum, in cents, of amounts as they are printed. *)
Definition printed_sum (xs : list float) : option Z :=
  fold_right (fun x acc =>
                match printed_cents (round2 x), acc with
                | Some c, Some t => Some (c + t)
                | _, _ => None
                end) (Some 0) xs.

(** The reading of C8 on the inflow table: when the statement compiles,
    the printed amounts add up to the printed total. *)
Definition inflow_table_matches (alg : Py.sum_algorithm) (inflows : list inflow_row)
  : Prop :=
  match floats_of (map i_amount inflows) with
  | Some xs => printed_sum xs = printed_cents (round2 (Py.sum alg xs))
  | None => True
  end.

Module DemoStatement.

(** An offering of 99999999.99, the largest amount the column holds. *)
Definition gift (i : Z) : transaction :=
  mkTransaction i None (Some "Doador") None (Some 9999999999)
                (Some (mkTimestamp (Demo.nov 1) 0)) confirmado manual (Some "oferta").

Fixpoint gifts_from (i : Z) (n : nat) : list transaction :=
  match n with
  | O => []
  | S n' => gift i :: gifts_from (i + 1) n'
  end.

(** The store after [n] such offerings were entered by hand. *)
Definition gifts (n : N) : store :=
  mkStore [] (gifts_from 1 (N.to_nat n)) [] 0 (Z.of_N n) 0.

End DemoStatement.

(** ** Notions used in the further properties *)

(** The columns of a transaction no handler ever rewrites. *)
Definition same_entry (t t' : transaction) : Prop :=
  t_id t' = t_id t /\ t_mp_id t' = t_mp_id t /\ t_payer_name t' = t_payer_name t
  /\ t_amount t' = t_amount t /\ t_transaction_date t' = t_transaction_date t
  /\ t_origin t' = t_origin t.

(** The three ways a handler rewrites existing transactions: not at all,
    the [UPDATE] of a confirmation, and [ON DELETE SET NULL]. *)
Inductive row_change : (transaction -> transaction) -> Prop :=
| rc_none : row_change (fun t => t)
| rc_confirm (ty : option string) (i : Z) : row_change (confirm_row ty i)
| rc_unlink (i : Z) : row_change (set_null_member i).

(** The rows one request can append to the transactions of [s]: none, the
    pending row of the webhook, or the confirmed row of a manual entry. *)
Inductive new_rows (s : store) : list transaction -> Prop :=
| nr_none : new_rows s []
| nr_pix (mp payer : string) (mid : option Z) (amount : Z) (d : option timestamp) :
    has_mp_id mp (transactions s) = false ->
    (forall i, mid = Some i -> exists m, In m (members s) /\ m_id m = i) ->
    new_rows s [mkTransaction (transactions_id_seq s + 1) (Some mp) (Some payer) mid
                              (Some amount) d pendente pix None]
| nr_manual (name : option string) (amount : option Z) (ty : option string)
            (now : timestamp) :
    new_rows s [mkTransaction (transactions_id_seq s + 1) None name None amount
                              (Some now) confirmado manual ty].

(** What the origin of a row says about its other columns. *)
Definition well_formed_row (t : transaction) : Prop :=
  match t_origin t with
  | pix => t_mp_id t <> None /\ t_payer_name t <> None /\ t_amount t <> None
  | manual => t_mp_id t = None /\ t_member_id t = None /\ t_status t = confirmado
  end
  /\ (t_status t = pendente -> t_type t = None).

(** The primary keys of members and expenses and the [UNIQUE] member code. *)
Definition keys_unique (s : store) : Prop :=
  NoDup (map m_id (members s)) /\ NoDup (map m_code (members s))
  /\ (forall m, In m (members s) -> m_id m <= members_id_seq s)
  /\ NoDup (map e_id (expenses s))
  /\ (forall x, In x (expenses s) -> e_id x <= expenses_id_seq s).

(** The ids of a store lie in the range of their [SERIAL] columns: every
    sequence is between 0 and the largest [INTEGER], and every id was
    handed out by its sequence. *)
Definition ids_in_range (s : store) : Prop :=
  (0 <= members_id_seq s <= int4_max
   /\ forall m, In m (members s) -> 1 <= m_id m <= members_id_seq s)
  /\ (0 <= transactions_id_seq s <= int4_max
      /\ forall t, In t (transactions s) -> 1 <= t_id t <= transactions_id_seq s)
  /\ (0 <= expenses_id_seq s <= int4_max
      /\ forall x, In x (expenses s) -> 1 <= e_id x <= expenses_id_seq s).

(** Everything one request can do to the store: nothing; draw an id for
    an [INSERT] that is then refused or skipped; append a member, a
    payment, a manual entry or an expense under the id drawn; confirm a
    transaction; delete a member or an expense. *)
Inductive effect (s : store) : store -> Prop :=
| eff_none : effect s s
| eff_member_refused (id : Z) :
    nextval (members_id_seq s) = Some id ->
    effect s (with_members (members s) id s)
| eff_member_added (id : Z) (c n : string) (b : option date) :
    nextval (members_id_seq s) = Some id ->
    existsb (fun m => String.eqb (m_code m) c) (members s) = false ->
    effect s (with_members (members s ++ [mkMember id c n b])%list id s)
| eff_member_deleted (id : Z) :
    in_int4 id = true ->
    effect s (delete_member id s)
| eff_payment_skipped (id : Z) :
    nextval (transactions_id_seq s) = Some id ->
    effect s (with_transactions (transactions s) id s)
| eff_payment_recorded (id : Z) (mp payer : string) (mid : option Z) (amount : Z)
                       (d : option timestamp) :
    nextval (transactions_id_seq s) = Some id ->
    has_mp_id mp (transactions s) = false ->
    (forall i, mid = Some i -> exists m, In m (members s) /\ m_id m = i) ->
    effect s (with_transactions
                (transactions s ++
                   [mkTransaction id (Some mp) (Some payer) mid (Some amount) d
                                  pendente pix None])%list
                id s)
| eff_confirmed (ty : option string) (id : Z) :
    effect s (with_transactions (map (confirm_row ty id) (transactions s))
                                (transactions_id_seq s) s)
| eff_manual_added (id : Z) (name : option string) (amount : option Z)
                   (ty : option string) (now : timestamp) :
    nextval (transactions_id_seq s) = Some id ->
    effect s (with_transactions
                (transactions s ++
                   [mkTransaction id None name None amount (Some now)
                                  confirmado manual ty])%list
                id s)
| eff_expense_refused (id : Z) :
    nextval (expenses_id_seq s) = Some id ->
    effect s (with_expenses (expenses s) id s)
| eff_expense_added (id : Z) (d : string) (c : option string) (a : Z)
                    (dt : option date) :
    nextval (expenses_id_seq s) = Some id ->
    effect s (with_expenses (expenses s ++ [mkExpense id d c a dt])%list id s)
| eff_expense_deleted (id : Z) :
    in_int4 id = true ->
    effect s (delete_expense id s).

(** [SUM] counts a [NULL] amount as nothing. *)
Definition amount_or_zero (t : transaction) : Z :=
  match t_amount t with
  | Some c => c
  | None => 0
  end.

(** The same surroundings with the database out of reach. *)
Definition db_down (e : env) : env :=
  mkEnv (sdk e) false (CURRENT_DATE e) (NOW e) (float_sum e).

Module DemoLedger.

(** The requests that register Joao, record his payment [pay_1], enter a
    tithe by hand and save the electricity bill. *)
Definition trace : list (env * request) :=
  [ (Demo.e, api_members (members_POST (Some "M01") (Some "Joao Silva") None));
    (Demo.e, POST_webhook_mercadopago Demo.pay_1);
    (Demo.e, api_transactions (manual_add (Some "Maria") (Some 5000) (Some "dizimo")));
    (Demo.e, api_expenses (expenses_POST (Some "Luz") None (Some 12000)
                                         (Some (Demo.nov 2)))) ].

(** The pending row the webhook recorded for [pay_1], linked to Joao. *)
Definition payment_row : transaction :=
  mkTransaction 1 (Some "pay_1") (Some "Joao Silva") (Some 1) (Some 10000)
                (Some (mkTimestamp (Demo.nov 3) 0)) pendente pix None.

Definition bill : expense := mkExpense 1 "Luz" None 12000 (Some (Demo.nov 2)).

(** A confirmed manual row without an amount, dated 4 November 2026. *)
Definition no_amount : store :=
  after (manage_transactions Demo.e (manual_add (Some "Maria") None (Some "oferta"))
                             empty_store).

End DemoLedger.

(** * Properties *)

(** ** Rounding a score *)

Module RoundFacts.

Lemma round_comp (x y : Q) : (x == y)%Q -> Py.round x = Py.round y.
Proof.
  intros H. unfold Py.round.
  rewrite (Qfloor_comp x y H).
  assert (E : (x - inject_Z (Qfloor y) == y - inject_Z (Qfloor y))%Q)
    by (rewrite H; reflexivity).
  rewrite (Qcompare_comp _ _ E (1 # 2)%Q (1 # 2)%Q (Qeq_refl _)).
  reflexivity.
Qed.

(** The rounded value is within one half of the argument. *)
Lemma round_near (x : Q) :
  (inject_Z (Py.round x) - (1 # 2) <= x <= inject_Z (Py.round x) + (1 # 2))%Q.
Proof.
  unfold Py.round.
  pose proof (Qfloor_le x) as Hlo.
  pose proof (Qlt_floor x) as Hhi.
  rewrite inject_Z_plus in Hhi. change (inject_Z 1) with 1%Q in Hhi.
  destruct (Qcompare_spec (x - inject_Z (Qfloor x)) (1 # 2)) as [E | L | G];
    [destruct (Z.even (Qfloor x)) | | ];
    rewrite ?inject_Z_plus; change (inject_Z 1) with 1%Q;
    generalize dependent (inject_Z (Qfloor x)); intros f; intros; split; lra.
Qed.

Lemma round_mono (x y : Q) : (x <= y)%Q -> Py.round x <= Py.round y.
Proof.
  intros Hxy.
  destruct (Z_le_gt_dec (Py.round x) (Py.round y)) as [H | H]; [exact H | exfalso].
  assert (Hz : Py.round y + 1 <= Py.round x) by lia.
  assert (Hq : (inject_Z (Py.round y) + 1 <= inject_Z (Py.round x))%Q).
  { change 1%Q with (inject_Z 1). rewrite <- inject_Z_plus.
    rewrite <- Zle_Qle. exact Hz. }
  pose proof (round_near x) as [Hx _].
  pose proof (round_near y) as [_ Hy].
  assert (E : (x == y)%Q) by lra.
  apply round_comp in E. lia.
Qed.

Lemma round_int (z : Z) : Py.round (inject_Z z) = z.
Proof.
  unfold Py.round. rewrite Qfloor_Z.
  assert (E : (inject_Z z - inject_Z z ?= 1 # 2)%Q = Lt).
  { apply (proj1 (Qlt_alt _ _)). generalize (inject_Z z). intros q. lra. }
  rewrite E. reflexivity.
Qed.

(** A choice that misses the cutoff [0] reports a score of at most [0]. *)
Lemma round_neg (x : Q) : (x <= 0)%Q -> Py.round x <= 0.
Proof.
  intros H. apply round_mono in H.
  change 0%Q with (inject_Z 0) in H. rewrite round_int in H. exact H.
Qed.

End RoundFacts.

(** ** The candidate map *)

Module DictFacts.

Lemma in_keys_setitem {V} (k k' : string) (v : V) (d : Py.dict V) :
  In k' (Py.keys (Py.setitem k v d)) <-> k' = k \/ In k' (Py.keys d).
Proof.
  induction d as [| [k0 v0] d IH]; simpl.
  - intuition.
  - destruct (String.eqb_spec k0 k) as [-> | Hne]; simpl.
    + intuition.
    + rewrite IH. intuition.
Qed.

Lemma getitem_setitem_eq {V} (k : string) (v : V) (d : Py.dict V) :
  Py.getitem k (Py.setitem k v d) = Some v.
Proof.
  induction d as [| [k0 v0] d IH]; simpl.
  - now rewrite String.eqb_refl.
  - destruct (String.eqb_spec k0 k) as [-> | Hne]; simpl.
    + now rewrite String.eqb_refl.
    + destruct (String.eqb_spec k0 k); [contradiction | exact IH].
Qed.

Lemma getitem_setitem_ne {V} (k k' : string) (v : V) (d : Py.dict V) :
  k' <> k -> Py.getitem k' (Py.setitem k v d) = Py.getitem k' d.
Proof.
  intros Hne. induction d as [| [k0 v0] d IH]; simpl.
  - destruct (String.eqb_spec k k'); [congruence | reflexivity].
  - destruct (String.eqb_spec k0 k) as [-> | Hne0]; simpl.
    + destruct (String.eqb_spec k k'); [congruence | reflexivity].
    + destruct (String.eqb_spec k0 k'); [reflexivity | exact IH].
Qed.

(** Indexing with a key the dict iterates over never raises. *)
Lemma getitem_in_keys {V} (k : string) (d : Py.dict V) :
  In k (Py.keys d) -> exists v, Py.getitem k d = Some v.
Proof.
  induction d as [| [k0 v0] d IH]; simpl; [tauto |].
  intros [-> | Hin].
  - rewrite String.eqb_refl. eauto.
  - destruct (String.eqb k0 k); eauto.
Qed.

End DictFacts.

Lemma choices_of_snoc (ms : list member) (m : member) :
  choices_of (ms ++ [m]) = Py.setitem (m_full_name m) (m_id m) (choices_of ms).
Proof. unfold choices_of. now rewrite fold_left_app. Qed.

Lemma in_keys_choices (k : string) (ms : list member) :
  In k (Py.keys (choices_of ms)) <-> In k (map m_full_name ms).
Proof.
  induction ms as [| m ms IH] using rev_ind.
  - simpl. tauto.
  - rewrite choices_of_snoc, DictFacts.in_keys_setitem, IH, map_app, in_app_iff.
    simpl. intuition.
Qed.

(** The candidate map keeps one id per full name: the last enumerated. *)
Lemma getitem_choices (k : string) (ms : list member) (i : Z) :
  Py.getitem k (choices_of ms) = Some i ->
  exists w, last_named k w ms /\ m_id w = i.
Proof.
  revert i. induction ms as [| m ms IH] using rev_ind; intros i.
  - discriminate.
  - rewrite choices_of_snoc.
    destruct (string_dec k (m_full_name m)) as [-> | Hne].
    + rewrite DictFacts.getitem_setitem_eq. intros [= <-].
      exists m. split; [| reflexivity].
      exists ms, []. repeat split. intros x [].
    + rewrite DictFacts.getitem_setitem_ne by exact Hne.
      intros H. destruct (IH i H) as (w & (l1 & l2 & -> & Hk & Hl2) & Hi).
      exists w. split; [| exact Hi].
      exists l1, (l2 ++ [m])%list. rewrite <- app_assoc. repeat split; [exact Hk |].
      intros x Hx. apply in_app_iff in Hx. destruct Hx as [Hx | [<- | []]].
      * now apply Hl2.
      * congruence.
Qed.

Lemma last_named_in (k : string) (w : member) (ms : list member) :
  last_named k w ms -> In w ms /\ m_full_name w = k.
Proof.
  intros (l1 & l2 & -> & Hk & _). split; [| exact Hk].
  apply in_app_iff. right. now left.
Qed.

(** ** The best match *)

Section Resolver.

Variable scorer : string -> string -> Q.

Lemma fold_max_spec (l : list Z) (a : Z) :
  (a <= fold_left Z.max l a /\ forall x, In x l -> x <= fold_left Z.max l a)
  /\ (fold_left Z.max l a = a \/ In (fold_left Z.max l a) l).
Proof.
  revert a. induction l as [| y l IH]; intros a; simpl.
  - repeat split; [lia | tauto | now left].
  - destruct (IH (Z.max a y)) as [[H1 H2] H3]. repeat split.
    + lia.
    + intros x [<- | Hx]; [lia | now apply H2].
    + destruct H3 as [E | Hin]; [| tauto].
      destruct (Z.max_spec a y) as [[_ E'] | [_ E']]; rewrite E' in E;
        intuition congruence.
Qed.

(** A value of the roster that bounds all the others is the maximum. *)
Lemma max_score_unique (q : string) (m : member) (ms : list member) (w : member) :
  In w (m :: ms) ->
  (forall x, In x (m :: ms) -> reported scorer q (m_full_name x) <= reported scorer q (m_full_name w)) ->
  reported scorer q (m_full_name w) = max_score scorer q m ms.
Proof.
  intros Hw Hub. unfold max_score.
  destruct (fold_max_spec (map (fun x => reported scorer q (m_full_name x)) ms)
                          (reported scorer q (m_full_name m))) as [[H1 H2] H3].
  apply Z.le_antisymm.
  - destruct Hw as [<- | Hw]; [exact H1 |].
    apply H2. apply in_map_iff. eauto.
  - destruct H3 as [-> | Hin].
    + apply Hub. now left.
    + apply in_map_iff in Hin. destruct Hin as (x & <- & Hx).
      apply Hub. now right.
Qed.

(** What the loop of [extractOne] leaves in its running best. *)
Lemma fold_keep_best (q : string) (ks : list string) (acc : option (string * Q)) :
  (forall k sc, acc = Some (k, sc) -> sc = scorer q k /\ (0 <= sc)%Q) ->
  match fold_left (keep_best scorer q) ks acc with
  | None => acc = None /\ forall k', In k' ks -> (scorer q k' < 0)%Q
  | Some (k, sc) =>
      sc = scorer q k /\ (0 <= sc)%Q
      /\ (In k ks \/ acc = Some (k, sc))
      /\ (forall k', In k' ks -> (scorer q k' <= sc)%Q)
      /\ (forall k0 sc0, acc = Some (k0, sc0) -> (sc0 <= sc)%Q)
  end.
Proof.
  revert acc. induction ks as [| k1 ks IH]; intros acc Hacc; simpl.
  - destruct acc as [[k sc] |].
    + destruct (Hacc k sc eq_refl). repeat split; auto.
      * tauto.
      * intros k0 sc0 [= -> ->]. apply Qle_refl.
    + split; [reflexivity | tauto].
  - set (acc' := keep_best scorer q acc k1).
    assert (Hacc' : forall k sc, acc' = Some (k, sc) -> sc = scorer q k /\ (0 <= sc)%Q).
    { intros k sc. unfold acc', keep_best.
      destruct (Qle_bool 0 (scorer q k1)) eqn:Hcut; [| apply Hacc].
      apply Qle_bool_iff in Hcut.
      destruct acc as [[k0 b] |].
      - destruct (Qle_bool (scorer q k1) b); [apply Hacc |].
        intros [= <- <-]. auto.
      - intros [= <- <-]. auto. }
    specialize (IH acc' Hacc').
    (* how the step relates to the old best *)
    assert (Hstep :
      (acc' = acc /\ ((scorer q k1 < 0)%Q
                      \/ exists k0 b, acc = Some (k0, b) /\ (scorer q k1 <= b)%Q))
      \/ (acc' = Some (k1, scorer q k1) /\ (0 <= scorer q k1)%Q
          /\ forall k0 b, acc = Some (k0, b) -> (b <= scorer q k1)%Q)).
    { unfold acc', keep_best.
      destruct (Qle_bool 0 (scorer q k1)) eqn:Hcut.
      - apply Qle_bool_iff in Hcut.
        destruct acc as [[k0 b] |].
        + destruct (Qle_bool (scorer q k1) b) eqn:Hle.
          * apply Qle_bool_iff in Hle. left. split; [reflexivity |]. right. eauto.
          * right. repeat split; auto. intros k' b' [= -> ->].
            apply Qlt_le_weak. apply Qnot_le_lt. intros H.
            apply Qle_bool_iff in H. congruence.
        + right. repeat split; auto. discriminate.
      - left. split; [reflexivity |]. left.
        apply Qnot_le_lt. intros H. apply Qle_bool_iff in H. congruence. }
    destruct (fold_left (keep_best scorer q) ks acc') as [[k sc] |].
    + destruct IH as (Hsc & Hpos & Hin & Hub & Hprev).
      split; [exact Hsc |]. split; [exact Hpos |].
      destruct Hstep as [[E Hk1] | (E & Hk1 & Hold)].
      * rewrite E in *. repeat split.
        -- destruct Hin; tauto.
        -- intros k' [<- | Hk']; [| now apply Hub].
           destruct Hk1 as [Hneg | (k0 & b & Eacc & Hle)].
           ++ apply Qlt_le_weak. eapply Qlt_le_trans; eauto.
           ++ eapply Qle_trans; [exact Hle |]. eapply Hprev; eauto.
        -- exact Hprev.
      * repeat split.
        -- destruct Hin as [Hin | Hin]; [tauto |].
           rewrite E in Hin. injection Hin as <- _. left. now left.
        -- intros k' [<- | Hk']; [| now apply Hub].
           apply (Hprev k1 (scorer q k1) E).
        -- intros k0 sc0 E0. eapply Qle_trans; [eapply Hold; eauto |].
           apply (Hprev k1 (scorer q k1) E).
    + destruct IH as [E Hneg].
      destruct Hstep as [[E' Hk1] | (E' & _)]; [| congruence].
      rewrite E in E'. split; [congruence |].
      intros k' [<- | Hk']; [| now apply Hneg].
      destruct Hk1 as [Hlt | (k0 & b & Eacc & _)]; [exact Hlt | congruence].
Qed.

End Resolver.

Section ResolverSpec.

Variable scorer : string -> string -> Q.

(** What a link, and the absence of one, say about the roster. *)
Lemma best_match_spec (q : string) (m : member) (ms : list member) :
  match best_match_id scorer q (m :: ms) with
  | Some i =>
      exists w, last_named (m_full_name w) w (m :: ms) /\ m_id w = i
                /\ reported scorer q (m_full_name w) = max_score scorer q m ms
                /\ 85 <= max_score scorer q m ms
  | None => max_score scorer q m ms < 85
  end.
Proof.
  unfold best_match_id, extractOne.
  pose proof (fold_keep_best scorer q (Py.keys (choices_of (m :: ms))) None
                             ltac:(intros ? ? [=])) as H.
  destruct (fold_left (keep_best scorer q) (Py.keys (choices_of (m :: ms))) None)
    as [[k sc] |].
  - destruct H as (Hsc & _ & Hin & Hub & _).
    destruct Hin as [Hin | Hin]; [| discriminate].
    destruct (DictFacts.getitem_in_keys k _ Hin) as [i Hi].
    destruct (getitem_choices k _ i Hi) as (w & Hlast & Hid).
    destruct (last_named_in _ _ _ Hlast) as [Hw Hk].
    assert (Hmax : reported scorer q (m_full_name w) = max_score scorer q m ms).
    { apply max_score_unique; [exact Hw |].
      intros x Hx. unfold reported. rewrite Hk, <- Hsc.
      apply RoundFacts.round_mono. apply Hub.
      apply in_keys_choices. now apply in_map. }
    assert (Hr : Py.round sc = max_score scorer q m ms).
    { rewrite <- Hmax. unfold reported. now rewrite Hk, Hsc. }
    rewrite Hr, Hi.
    destruct (Z.leb_spec 85 (max_score scorer q m ms)) as [Hge | Hlt]; [| exact Hlt].
    exists w. rewrite Hk in *. repeat split; assumption.
  - destruct H as [_ Hneg].
    unfold max_score.
    destruct (fold_max_spec (map (fun x => reported scorer q (m_full_name x)) ms)
                            (reported scorer q (m_full_name m))) as [_ [-> | Hin]].
    + assert (reported scorer q (m_full_name m) <= 0); [| lia].
      apply RoundFacts.round_neg, Qlt_le_weak, Hneg.
      apply in_keys_choices. now left.
    + apply in_map_iff in Hin. destruct Hin as (x & <- & Hx).
      assert (reported scorer q (m_full_name x) <= 0); [| lia].
      apply RoundFacts.round_neg, Qlt_le_weak, Hneg.
      apply in_keys_choices. right. now apply in_map.
Qed.

End ResolverSpec.

(** A primary key pins down where a row sits. *)
Lemma split_at_key {A} (f : A -> Z) (a b l1 l2 : list A) (w m : A) :
  NoDup (map f (a ++ w :: b)) ->
  (a ++ w :: b = l1 ++ m :: l2)%list -> f w = f m -> w = m /\ b = l2.
Proof.
  revert l1. induction a as [| y a IH]; intros [| x l1] Hnd E Hf; simpl in *.
  - now injection E.
  - injection E as -> ->. exfalso.
    apply NoDup_cons_iff in Hnd. apply (proj1 Hnd).
    rewrite Hf, map_app. apply in_app_iff. right. now left.
  - injection E as -> <-. exfalso.
    apply NoDup_cons_iff in Hnd. apply (proj1 Hnd).
    rewrite <- Hf, map_app. apply in_app_iff. right. now left.
  - injection E as -> E. apply (IH l1); auto.
    now apply NoDup_cons_iff in Hnd.
Qed.

(** C2: with an empty roster the resolver returns no match; otherwise it
    returns the reference of a member achieving the maximum similarity score
    exactly when that maximum is at least 85, and no match when it is
    below 85. *)
Theorem resolver_threshold (scorer : string -> string -> Q) (q : string) :
  best_match_id scorer q [] = None /\
  forall (m : member) (ms : list member),
    (85 <= max_score scorer q m ms ->
     exists w, In w (m :: ms)
               /\ reported scorer q (m_full_name w) = max_score scorer q m ms
               /\ best_match_id scorer q (m :: ms) = Some (m_id w))
    /\ (max_score scorer q m ms < 85 -> best_match_id scorer q (m :: ms) = None).
Proof.
  split; [reflexivity |].
  intros m ms. pose proof (best_match_spec scorer q m ms) as H.
  destruct (best_match_id scorer q (m :: ms)) as [i |].
  - destruct H as (w & Hlast & <- & Hmax & Hge). split; [| lia].
    intros _. exists w. split; [| auto].
    now apply (last_named_in _ _ _ Hlast).
  - split; [lia | reflexivity].
Qed.

(** C10: when members share a full name, the resolver can only link the
    payer to the one enumerated last among them; with ids being a primary
    key, a member whose full name is repeated by a later member is never
    returned. *)
Theorem duplicate_names_link_last (scorer : string -> string -> Q) (q : string)
    (ms : list member) :
  (forall i, best_match_id scorer q ms = Some i ->
             exists w, last_named (m_full_name w) w ms /\ m_id w = i)
  /\ (NoDup (map m_id ms) ->
      forall l1 m l2 m',
        ms = (l1 ++ m :: l2)%list -> In m' l2 -> m_full_name m' = m_full_name m ->
        best_match_id scorer q ms <> Some (m_id m)).
Proof.
  assert (H1 : forall i, best_match_id scorer q ms = Some i ->
                         exists w, last_named (m_full_name w) w ms /\ m_id w = i).
  { intros i Hi. destruct ms as [| m ms']; [discriminate |].
    pose proof (best_match_spec scorer q m ms') as H. rewrite Hi in H.
    destruct H as (w & Hlast & Hid & _). eauto. }
  split; [exact H1 |].
  intros Hnd l1 m l2 m' E Hin Hname Hres.
  destruct (H1 _ Hres) as (w & (a & b & E' & _ & Hlater) & Hid).
  rewrite E' in Hnd. rewrite E in E'. symmetry in E'.
  destruct (split_at_key m_id a b l1 l2 w m Hnd E' Hid) as [-> ->].
  now apply (Hlater m' Hin).
Qed.

(** ** How a request changes the store *)

Arguments varchar : simpl never.
Arguments varchar_opt : simpl never.
Arguments nextval : simpl never.
Arguments in_int4 : simpl never.

Lemma nextval_next (last id : Z) :
  nextval last = Some id -> id = last + 1 /\ last < int4_max.
Proof.
  unfold nextval. destruct (Z.ltb_spec last int4_max); [| discriminate].
  intros [= <-]. auto.
Qed.

Lemma nextval_ready (last : Z) : last < int4_max -> nextval last = Some (last + 1).
Proof.
  intros H. unfold nextval. destruct (Z.ltb_spec last int4_max); [reflexivity | lia].
Qed.

Lemma best_match_in_roster scorer (q : string) (ms : list member) (i : Z) :
  best_match_id scorer q ms = Some i -> exists m, In m ms /\ m_id m = i.
Proof.
  intros Hi. destruct ms as [| m ms']; [discriminate |].
  pose proof (best_match_spec scorer q m ms') as H. rewrite Hi in H.
  destruct H as (w & Hlast & Hid & _).
  exists w. split; [| exact Hid]. now apply (last_named_in _ _ _ Hlast).
Qed.

(** What the [INSERT] of the webhook does when it does not raise. *)
Lemma insert_cases (mp payer : string) (mid : option Z) (amount : Z)
    (d : option timestamp) (s s' : store) :
  insert_transaction_on_conflict_do_nothing mp payer mid amount d s = Some s' ->
  exists mp' payer' id,
    varchar 50 mp = Some mp' /\ varchar 255 payer = Some payer'
    /\ fits_numeric_10_2 amount = true
    /\ nextval (transactions_id_seq s) = Some id
    /\ s' = if has_mp_id mp' (transactions s)
            then with_transactions (transactions s) id s
            else with_transactions
                   (transactions s ++
                      [mkTransaction id (Some mp') (Some payer') mid (Some amount) d
                                     pendente pix None])%list
                   id s.
Proof.
  unfold insert_transaction_on_conflict_do_nothing.
  destruct (varchar 50 mp) as [mp' |]; [| discriminate].
  destruct (varchar 255 payer) as [payer' |]; [| discriminate].
  destruct (fits_numeric_10_2 amount); [| discriminate].
  destruct (nextval (transactions_id_seq s)) as [id |]; [| discriminate].
  intros E. exists mp', payer', id. repeat split.
  destruct (has_mp_id mp' (transactions s)); now injection E as <-.
Qed.

Lemma insert_effect (mp payer : string) (mid : option Z) (amount : Z)
    (d : option timestamp) (s s' : store) :
  (forall i, mid = Some i -> exists m, In m (members s) /\ m_id m = i) ->
  insert_transaction_on_conflict_do_nothing mp payer mid amount d s = Some s' ->
  effect s s'.
Proof.
  intros Hmid E. apply insert_cases in E.
  destruct E as (mp' & payer' & id & _ & _ & _ & Hid & ->).
  destruct (has_mp_id mp' (transactions s)) eqn:Hmp.
  - now apply eff_payment_skipped.
  - now apply eff_payment_recorded.
Qed.

Lemma mp_webhook_effect scorer (e : env) (b : webhook_body) (s : store) :
  effect s (after (mp_webhook scorer e b s)).
Proof.
  unfold mp_webhook, record_payment.
  destruct (sdk e) as [gw |]; [| constructor].
  destruct b as [| n]; [constructor |].
  destruct (is_payment_event n); [| constructor].
  destruct (n_data n) as [| [pid |] |]; try constructor.
  destruct (truthy pid); [| constructor].
  destruct (gw pid) as [p |]; [| constructor]. simpl.
  destruct (String.eqb (p_status p) "approved"); [| constructor].
  destruct (db_up e); [| constructor].
  destruct (insert_transaction_on_conflict_do_nothing _ _ _ _ _ _) as [s' |] eqn:E;
    [| constructor].
  eapply insert_effect; [| exact E]. intros i. apply best_match_in_roster.
Qed.

Lemma manage_members_effect (e : env) (r : members_request) (s : store) :
  effect s (after (manage_members e r s)).
Proof.
  unfold manage_members. destruct (db_up e); [| constructor].
  destruct r as [| c n b | [[| id] |]]; simpl; try constructor.
  - destruct (varchar_opt 10 c) as [c' |]; [| constructor].
    destruct (varchar_opt 255 n) as [n' |]; [| constructor].
    destruct (nextval (members_id_seq s)) as [id |] eqn:Hid; [| constructor].
    destruct c' as [c' |]; [| now apply eff_member_refused].
    destruct n' as [n' |]; [| now apply eff_member_refused].
    destruct (existsb _ _) eqn:Hc; simpl.
    + now apply eff_member_refused.
    + now apply eff_member_added.
  - destruct (in_int4 id) eqn:Hid; simpl; [| constructor].
    now apply eff_member_deleted.
Qed.

Lemma manage_transactions_effect (e : env) (r : transactions_request) (s : store) :
  effect s (after (manage_transactions e r s)).
Proof.
  unfold manage_transactions. destruct (db_up e); [| constructor].
  destruct r as [| ty id | name amount ty |]; simpl; try constructor.
  - destruct (varchar_opt 20 ty) as [ty' |]; [| constructor].
    destruct id as [id |]; simpl; constructor.
  - destruct (varchar_opt 255 name) as [name' |]; [| constructor].
    destruct (varchar_opt 20 ty) as [ty' |]; [| constructor].
    destruct (match amount with Some c => fits_numeric_10_2 c | None => true end);
      [| constructor].
    destruct (nextval (transactions_id_seq s)) as [id |] eqn:Hid; [| constructor].
    now apply eff_manual_added.
Qed.

Lemma manage_expenses_effect (e : env) (r : expenses_request) (s : store) :
  effect s (after (manage_expenses e r s)).
Proof.
  unfold manage_expenses. destruct (db_up e); [| constructor].
  destruct r as [| d c a dt | [[| id] |]]; simpl; try constructor.
  - destruct (varchar_opt 255 d) as [d' |]; [| constructor].
    destruct (varchar_opt 100 c) as [c' |]; [| constructor].
    destruct (match a with Some a' => fits_numeric_10_2 a' | None => true end);
      [| constructor].
    destruct (nextval (expenses_id_seq s)) as [id |] eqn:Hid; [| constructor].
    destruct d' as [d' |]; [| now apply eff_expense_refused].
    destruct a as [a |]; [| now apply eff_expense_refused].
    now apply eff_expense_added.
  - destruct (in_int4 id) eqn:Hid; simpl; [| constructor].
    now apply eff_expense_deleted.
Qed.

Lemma read_only_dashboard (e : env) (s : store) : after (get_dashboard e s) = s.
Proof. unfold get_dashboard. now destruct (db_up e). Qed.

Lemma read_only_report (e : env) (mo yr : Z) (prev : float) (s : store) :
  after (generate_report e mo yr prev s) = s.
Proof.
  unfold generate_report. destruct (db_up e); [| reflexivity].
  destruct (report_totals _ _ _ _); [| reflexivity].
  now destruct (compile_pdf _ _ _ _ _ _).
Qed.

Lemma handle_effect scorer (e : env) (r : request) (s : store) :
  effect s (after (handle scorer e r s)).
Proof.
  destruct r; simpl.
  - constructor.
  - apply mp_webhook_effect.
  - rewrite read_only_dashboard. constructor.
  - apply manage_members_effect.
  - apply manage_transactions_effect.
  - apply manage_expenses_effect.
  - rewrite read_only_report. constructor.
Qed.

(** A property every effect preserves holds along every run. *)
Lemma run_effects scorer (P : store -> Prop) :
  (forall s s', effect s s' -> P s -> P s') ->
  forall trace s, P s -> P (run scorer trace s).
Proof.
  intros Hstep trace. unfold run.
  induction trace as [| [e r] trace IH]; intros s Hs; simpl; [exact Hs |].
  apply IH. eapply Hstep; [apply handle_effect | exact Hs].
Qed.

(** ** How a request changes the transactions relation *)

Lemma keeps_id : keeps (fun t => t).
Proof. intros t. auto. Qed.

Lemma keeps_confirm_row (ty : option string) (id : Z) : keeps (confirm_row ty id).
Proof. intros t. unfold confirm_row. destruct (t_id t =? id); simpl; auto. Qed.

Lemma keeps_set_null_member (id : Z) : keeps (set_null_member id).
Proof.
  intros t. unfold set_null_member.
  destruct (option_eqb Z.eqb (t_member_id t) (Some id)); simpl; auto.
Qed.

Lemma grows_untouched (s s' : store) :
  transactions s' = transactions s -> transactions_id_seq s <= transactions_id_seq s' ->
  grows s s'.
Proof.
  intros Et Hseq. apply grows_same with (f := fun t => t);
    [apply keeps_id | now rewrite map_id | exact Hseq].
Qed.

Lemma effect_grows (s s' : store) : effect s s' -> grows s s'.
Proof.
  intros [| id Hid | id c n b Hid Hc | id Hid
          | id Hid | id mp payer mid amount d Hid Hmp Hmid
          | ty id | id name amount ty now Hid
          | id Hid | id d c a dt Hid | id Hid];
    try (apply grows_untouched; simpl; [reflexivity | lia]);
    try (apply nextval_next in Hid; destruct Hid as [-> Hlt]).
  - apply grows_same with (f := set_null_member id); simpl;
      [apply keeps_set_null_member | reflexivity | lia].
  - apply grows_untouched; simpl; [reflexivity | lia].
  - eapply grows_add with (f := fun t => t); simpl;
      [apply keeps_id | now rewrite map_id | reflexivity | reflexivity |].
    now intros x [= <-].
  - apply grows_same with (f := confirm_row ty id); simpl;
      [apply keeps_confirm_row | reflexivity | lia].
  - eapply grows_add with (f := fun t => t); simpl;
      [apply keeps_id | now rewrite map_id | reflexivity | reflexivity |].
    discriminate.
Qed.

Lemma mp_webhook_grows scorer (e : env) (b : webhook_body) (s : store) :
  grows s (after (mp_webhook scorer e b s)).
Proof. apply effect_grows, mp_webhook_effect. Qed.

Lemma handle_grows scorer (e : env) (r : request) (s : store) :
  grows s (after (handle scorer e r s)).
Proof. apply effect_grows, handle_effect. Qed.

(** ** Invariants of the transactions relation *)

Lemma rows_with_mp_id_map (f : transaction -> transaction) (x : string)
    (ts : list transaction) :
  keeps f ->
  List.length (rows_with_mp_id x (map f ts)) = List.length (rows_with_mp_id x ts).
Proof.
  intros Hf. unfold rows_with_mp_id.
  induction ts as [| t ts IH]; simpl; [reflexivity |].
  destruct (Hf t) as (_ & -> & _).
  destruct (option_eqb String.eqb (t_mp_id t) (Some x)); simpl; now rewrite IH.
Qed.

Lemma rows_with_mp_id_app (x : string) (ts ts' : list transaction) :
  rows_with_mp_id x (ts ++ ts') = (rows_with_mp_id x ts ++ rows_with_mp_id x ts')%list.
Proof. apply filter_app. Qed.

Lemma has_mp_id_false (x : string) (ts : list transaction) :
  has_mp_id x ts = false -> rows_with_mp_id x ts = [].
Proof.
  unfold has_mp_id, rows_with_mp_id.
  induction ts as [| t ts IH]; simpl; [reflexivity |].
  destruct (option_eqb String.eqb (t_mp_id t) (Some x)); simpl;
    [discriminate | exact IH].
Qed.

Lemma has_mp_id_true (x : string) (ts : list transaction) :
  has_mp_id x ts = true -> 1 <= Z.of_nat (List.length (rows_with_mp_id x ts)).
Proof.
  unfold has_mp_id, rows_with_mp_id.
  induction ts as [| t ts IH]; simpl; [discriminate |].
  destruct (option_eqb String.eqb (t_mp_id t) (Some x)); simpl; [lia | exact IH].
Qed.

Lemma grows_mp_id_unique (s s' : store) :
  grows s s' -> mp_id_unique s -> mp_id_unique s'.
Proof.
  intros [f Hf E _ | f t' Hf E _ _ Hfresh] Hu x; rewrite E.
  - rewrite rows_with_mp_id_map by exact Hf. apply Hu.
  - rewrite rows_with_mp_id_app, length_app, rows_with_mp_id_map by exact Hf.
    unfold rows_with_mp_id at 2. simpl.
    destruct (t_mp_id t') as [y |] eqn:Hy; simpl.
    + destruct (String.eqb_spec y x) as [-> | Hne]; simpl.
      * rewrite (has_mp_id_false x (transactions s) (Hfresh x eq_refl)). simpl. lia.
      * specialize (Hu x). lia.
    + specialize (Hu x). lia.
Qed.

Lemma run_invariant scorer (P : store -> Prop) :
  (forall s s', grows s s' -> P s -> P s') ->
  forall trace s, P s -> P (run scorer trace s).
Proof.
  intros Hstep trace. unfold run.
  induction trace as [| [e r] trace IH]; intros s Hs; simpl; [exact Hs |].
  apply IH. eapply Hstep; [apply handle_grows | exact Hs].
Qed.

Lemma map_id_keeps (f : transaction -> transaction) (ts : list transaction) :
  keeps f -> map t_id (map f ts) = map t_id ts.
Proof.
  intros Hf. rewrite map_map. apply map_ext. intros t. apply (Hf t).
Qed.

Lemma grows_ids_fresh (s s' : store) : grows s s' -> ids_fresh s -> ids_fresh s'.
Proof.
  intros [f Hf E Hseq | f t' Hf E Hid Hseq _] [Hnd Hle]; split; rewrite E.
  - now rewrite map_id_keeps.
  - intros t Ht. apply in_map_iff in Ht. destruct Ht as (t0 & <- & Ht0).
    destruct (Hf t0) as (-> & _). specialize (Hle t0 Ht0). lia.
  - rewrite map_app, map_id_keeps by exact Hf. simpl.
    apply NoDup_app; [exact Hnd | repeat constructor; intros [] |].
    intros i Hi [<- | []]. apply in_map_iff in Hi. destruct Hi as (t0 & E0 & Ht0).
    specialize (Hle t0 Ht0). lia.
  - intros t Ht. apply in_app_iff in Ht. destruct Ht as [Ht | [<- | []]]; [| lia].
    apply in_map_iff in Ht. destruct Ht as (t0 & <- & Ht0).
    destruct (Hf t0) as (-> & _). specialize (Hle t0 Ht0). lia.
Qed.

(** On every store the application can reach, an id names one row. *)
Lemma run_ids_fresh scorer (trace : list (env * request)) :
  ids_fresh (run scorer trace empty_store).
Proof.
  apply run_invariant; [apply grows_ids_fresh |].
  split; [constructor | intros t []].
Qed.

Lemma find_map_keeps (f : transaction -> transaction) (i : Z) (ts : list transaction) :
  keeps f ->
  find (fun t => t_id t =? i) (map f ts) = option_map f (find (fun t => t_id t =? i) ts).
Proof.
  intros Hf. induction ts as [| t ts IH]; simpl; [reflexivity |].
  destruct (Hf t) as (-> & _). now destruct (t_id t =? i).
Qed.

Lemma find_app_l {A} (p : A -> bool) (l l' : list A) :
  find p (l ++ l') = match find p l with Some x => Some x | None => find p l' end.
Proof.
  induction l as [| x l IH]; simpl; [reflexivity |].
  now destruct (p x).
Qed.

Lemma grows_confirmed (i : Z) (s s' : store) :
  grows s s' -> status_of i s = Some confirmado -> status_of i s' = Some confirmado.
Proof.
  unfold status_of.
  intros [f Hf E _ | f t' Hf E _ _ _]; rewrite E;
    [| rewrite find_app_l]; rewrite find_map_keeps by exact Hf;
    destruct (find (fun t => t_id t =? i) (transactions s)) as [t |];
    simpl; try discriminate; intros [= Hc]; now rewrite (proj2 (proj2 (Hf t)) Hc).
Qed.

Lemma grows_has_mp_id (x : string) (s s' : store) :
  grows s s' -> has_mp_id x (transactions s) = true ->
  has_mp_id x (transactions s') = true.
Proof.
  assert (Hmap : forall f ts, keeps f -> has_mp_id x (map f ts) = has_mp_id x ts).
  { intros f ts Hf. unfold has_mp_id. induction ts as [| t ts IH]; simpl; [reflexivity |].
    destruct (Hf t) as (_ & -> & _). now rewrite IH. }
  intros [f Hf E _ | f t' Hf E _ _ _] Hx; rewrite E.
  - now rewrite Hmap.
  - specialize (Hmap f (transactions s) Hf). unfold has_mp_id in *.
    now rewrite existsb_app, Hmap, Hx.
Qed.

(** ** Webhook deliveries *)

Lemma has_mp_id_snoc (x : string) (ts : list transaction) (t : transaction) :
  t_mp_id t = Some x -> has_mp_id x (ts ++ [t]) = true.
Proof.
  intros E. unfold has_mp_id. rewrite existsb_app. simpl. rewrite E. simpl.
  rewrite String.eqb_refl. apply orb_true_iff. right. reflexivity.
Qed.

(** An [INSERT] that does not raise leaves the external id in the table. *)
Lemma insert_has_mp_id (mp mp' payer : string) (mid : option Z) (amount : Z)
    (d : option timestamp) (s s' : store) :
  varchar 50 mp = Some mp' ->
  insert_transaction_on_conflict_do_nothing mp payer mid amount d s = Some s' ->
  has_mp_id mp' (transactions s') = true.
Proof.
  intros Hmp E. apply insert_cases in E.
  destruct E as (mp'' & payer' & id & Hmp' & _ & _ & _ & ->).
  rewrite Hmp in Hmp'. injection Hmp' as <-.
  destruct (has_mp_id mp' (transactions s)) eqn:Hin; simpl; [exact Hin |].
  now apply has_mp_id_snoc.
Qed.

Lemma insert_conflict (mp mp' payer : string) (mid : option Z) (amount : Z)
    (d : option timestamp) (s s' : store) :
  varchar 50 mp = Some mp' -> has_mp_id mp' (transactions s) = true ->
  insert_transaction_on_conflict_do_nothing mp payer mid amount d s = Some s' ->
  transactions s' = transactions s.
Proof.
  intros Hmp Hin E. apply insert_cases in E.
  destruct E as (mp'' & payer' & id & Hmp' & _ & _ & _ & ->).
  rewrite Hmp in Hmp'. injection Hmp' as <-. now rewrite Hin.
Qed.

(** When nothing stands in its way the [INSERT] does not raise. *)
Lemma insert_succeeds (mp mp' payer : string) (mid : option Z) (amount : Z)
    (d : option timestamp) (s : store) :
  varchar 50 mp = Some mp' -> varchar 255 payer <> None ->
  fits_numeric_10_2 amount = true -> transactions_id_seq s < int4_max ->
  insert_transaction_on_conflict_do_nothing mp payer mid amount d s <> None.
Proof.
  intros Hmp Hpayer Hfit Hseq. unfold insert_transaction_on_conflict_do_nothing.
  rewrite Hmp, Hfit, (nextval_ready _ Hseq).
  destruct (varchar 255 payer); [| contradiction].
  now destruct (has_mp_id mp' (transactions s)).
Qed.

Lemma iter_deliver_unique scorer (e : env) (n : notification) (k : nat) (s : store) :
  mp_id_unique s -> mp_id_unique (Nat.iter k (deliver scorer e n) s).
Proof.
  intros Hs. induction k as [| k IH]; simpl; [exact Hs |].
  eapply grows_mp_id_unique; [apply mp_webhook_grows | exact IH].
Qed.

Lemma iter_deliver_has_mp_id scorer (e : env) (n : notification) (x : string)
    (k : nat) (s : store) :
  has_mp_id x (transactions (deliver scorer e n s)) = true ->
  has_mp_id x (transactions (Nat.iter (S k) (deliver scorer e n) s)) = true.
Proof.
  intros H. induction k as [| k IH]; [exact H |].
  change (Nat.iter (S (S k)) (deliver scorer e n) s)
    with (deliver scorer e n (Nat.iter (S k) (deliver scorer e n) s)).
  eapply grows_has_mp_id; [apply mp_webhook_grows | exact IH].
Qed.

(** C1: after any run of requests each external id is carried by at most
    one transaction row; a delivery whose external id, as the column
    stores it, is already in the store leaves the transactions relation
    unchanged; and delivering the same approved payment notification
    N >= 1 times, when its id and payer name fit their columns, its amount
    fits and the sequence can still hand out an id, leaves exactly one row
    with its external id. *)
Theorem webhook_idempotent (scorer : string -> string -> Q) :
  (forall trace x,
      (List.length (rows_with_mp_id x (transactions (run scorer trace empty_store)))
       <= 1)%nat)
  /\ (forall e (n : notification) s,
         (forall pid mp, n_data_id n = Some pid -> varchar 50 (str pid) = Some mp ->
                         has_mp_id mp (transactions s) = true) ->
         transactions (after (mp_webhook scorer e n s)) = transactions s)
  /\ (forall e (n : notification) gw pid p mp trace k,
         sdk e = Some gw -> is_payment_event n = true ->
         n_data_id n = Some pid -> truthy pid = true ->
         gw pid = Some p -> p_status p = "approved" ->
         db_up e = true -> fits_numeric_10_2 (p_transaction_amount p) = true ->
         varchar 50 (str pid) = Some mp -> varchar 255 (payer_name_of p) <> None ->
         transactions_id_seq (run scorer trace empty_store) < int4_max ->
         (1 <= k)%nat ->
         List.length
           (rows_with_mp_id mp
              (transactions (Nat.iter k (deliver scorer e n)
                                      (run scorer trace empty_store))))
         = 1%nat).
Proof.
  assert (Hreach : forall trace, mp_id_unique (run scorer trace empty_store)).
  { intros trace. apply run_invariant; [apply grows_mp_id_unique |].
    intros x. simpl. lia. }
  split; [exact Hreach |]. split.
  - intros e n s Hdup. unfold mp_webhook, record_payment, n_data_id in *.
    destruct (sdk e) as [gw |]; [| reflexivity].
    destruct (is_payment_event n); [| reflexivity].
    destruct (n_data n) as [| [pid |] |]; try reflexivity.
    destruct (truthy pid); [| reflexivity].
    destruct (gw pid) as [p |]; [| reflexivity]. simpl.
    destruct (String.eqb (p_status p) "approved"); [| reflexivity].
    destruct (db_up e); [| reflexivity].
    destruct (insert_transaction_on_conflict_do_nothing _ _ _ _ _ _) as [s' |] eqn:E;
      [| reflexivity].
    destruct (insert_cases _ _ _ _ _ _ _ E) as (mp & _ & _ & Hmp & _).
    eapply insert_conflict; [exact Hmp | | exact E]. now apply (Hdup pid).
  - intros e n gw pid p mp trace k Hsdk Hev Hid Htr Hgw Hst Hdb Hfit Hmp Hpayer Hseq Hk.
    destruct k as [| k]; [lia |].
    pose proof (iter_deliver_unique scorer e n (S k) _ (Hreach trace) mp) as Hle.
    assert (Hin : has_mp_id mp
                    (transactions (Nat.iter (S k) (deliver scorer e n)
                                            (run scorer trace empty_store))) = true).
    { apply iter_deliver_has_mp_id.
      unfold deliver, mp_webhook, record_payment, n_data_id in *.
      rewrite Hsdk, Hev. destruct (n_data n) as [| [pid' |] |]; try discriminate.
      injection Hid as ->. rewrite Htr, Hgw. simpl. rewrite Hst, Hdb.
      destruct (insert_transaction_on_conflict_do_nothing _ _ _ _ _ _) as [s' |] eqn:E.
      - eapply insert_has_mp_id; [exact Hmp | exact E].
      - exfalso. revert E. now apply (insert_succeeds _ mp). }
    apply has_mp_id_true in Hin. lia.
Qed.

(** C4, counterexample: with the SDK configured, a payment event whose
    ["data"] field is [null] and a body that is not a JSON object are both
    answered with status 500. *)
Lemma webhook_rejects_malformed_body :
  sdk Demo.e <> None
  /\ ~ acknowledged (mp_webhook Demo.exact Demo.e Demo.null_data empty_store)
  /\ ~ acknowledged (mp_webhook Demo.exact Demo.e json_other empty_store).
Proof. repeat split; discriminate. Qed.

(** C4, as the code has it: with a configured SDK the webhook
    acknowledges with status 200, after at most one gateway lookup, every
    notification that is a JSON object and, if it is a payment event, has
    a ["data"] field that is absent or an object; when the lookup fails
    nothing is persisted, the answer is still the acknowledgment and the
    lookup is not repeated; without a configured SDK every body is
    answered with the distinct 500 configuration error, touching nothing. *)
Theorem webhook_always_acknowledges (scorer : string -> string -> Q)
    (e : env) (n : notification) (b : webhook_body) (s : store) :
  (forall gw, sdk e = Some gw ->
              (is_payment_event n = true -> n_data n <> data_other) ->
              acknowledged (mp_webhook scorer e n s)
              /\ (List.length (lookups (mp_webhook scorer e n s)) <= 1)%nat)
  /\ (forall gw pid,
         sdk e = Some gw -> is_payment_event n = true ->
         n_data_id n = Some pid -> truthy pid = true -> gw pid = None ->
         mp_webhook scorer e n s = mkOutcome s ok [pid])
  /\ (sdk e = None ->
      mp_webhook scorer e b s
      = mkOutcome s (mkResponse 500 (JError "SDK não configurado")) []).
Proof.
  unfold mp_webhook, acknowledged, n_data_id. split; [| split].
  - intros gw Hsdk Hshape. rewrite Hsdk.
    destruct (is_payment_event n); [| simpl; split; [reflexivity | lia]].
    destruct (n_data n) as [| [pid |] |];
      try (simpl; split; [reflexivity | lia]).
    + destruct (truthy pid); [| simpl; split; [reflexivity | lia]].
      destruct (gw pid); simpl; split; solve [reflexivity | lia].
    + now destruct Hshape.
  - intros gw pid Hsdk Hev Hid Htr Hgw. rewrite Hsdk, Hev.
    destruct (n_data n) as [| [pid' |] |]; try discriminate.
    injection Hid as ->. now rewrite Htr, Hgw.
  - intros Hsdk. now rewrite Hsdk.
Qed.

(** C5: once the transaction with a given id is confirmed, it is still
    confirmed after any further run of requests, whatever they are:
    deliveries, confirmations, manual entries, member and expense changes,
    dashboards or reports. *)
Theorem confirmed_is_final (scorer : string -> string -> Q)
    (trace : list (env * request)) (s : store) (i : Z) :
  status_of i s = Some confirmado ->
  status_of i (run scorer trace s) = Some confirmado.
Proof.
  apply (run_invariant scorer (fun s' => status_of i s' = Some confirmado)).
  intros s1 s2. apply grows_confirmed.
Qed.

(** ** The foreign key from transactions to members *)

Lemma effect_references (s s' : store) :
  effect s s' -> references_hold s -> references_hold s'.
Proof.
  intros [| id Hid | id c n b Hid Hc | id Hid
          | id Hid | id mp payer mid amount d Hid Hmp Hmid
          | ty id | id name amount ty now Hid
          | id Hid | id d c a dt Hid | id Hid] Hs;
    try exact Hs; intros t i Ht Hi; simpl in *.
  - destruct (Hs t i Ht Hi) as (m & Hm & E).
    exists m. split; [apply in_app_iff; now left | exact E].
  - apply in_map_iff in Ht. destruct Ht as (t0 & <- & Ht0).
    unfold set_null_member in Hi.
    destruct (option_eqb Z.eqb (t_member_id t0) (Some id)) eqn:Hdel;
      [discriminate Hi |].
    destruct (Hs t0 i Ht0 Hi) as (m & Hm & E).
    exists m. split; [| exact E].
    apply filter_In. split; [exact Hm |].
    rewrite Hi in Hdel. simpl in Hdel. rewrite E. now rewrite Hdel.
  - apply in_app_iff in Ht.
    destruct Ht as [Ht | [<- | []]]; [now apply (Hs t) |].
    now apply Hmid.
  - apply in_map_iff in Ht. destruct Ht as (t0 & <- & Ht0).
    apply (Hs t0 i Ht0). unfold confirm_row in Hi.
    now destruct (t_id t0 =? id).
  - apply in_app_iff in Ht.
    destruct Ht as [Ht | [<- | []]]; [now apply (Hs t) | discriminate Hi].
Qed.

Lemma run_references scorer (trace : list (env * request)) :
  references_hold (run scorer trace empty_store).
Proof.
  apply run_effects; [apply effect_references | intros t i []].
Qed.

(** ** Ids and sequences stay in the range of their columns *)

Ltac id_kept :=
  match goal with
  | |- context [t_id (set_null_member ?i ?t)] =>
      rewrite (proj1 (keeps_set_null_member i t))
  | |- context [t_id (confirm_row ?ty ?i ?t)] =>
      rewrite (proj1 (keeps_confirm_row ty i t))
  end.

Lemma effect_ids_in_range (s s' : store) :
  effect s s' -> ids_in_range s -> ids_in_range s'.
Proof.
  unfold ids_in_range.
  intros [| id Hid | id c n b Hid Hc | id Hid
          | id Hid | id mp payer mid amount d Hid Hmp Hmid
          | ty id | id name amount ty now Hid
          | id Hid | id d c a dt Hid | id Hid]
         ((Hm & Hms) & (Ht & Hts) & (Hx & Hxs));
    try (apply nextval_next in Hid; destruct Hid as [-> Hlt]);
    simpl; refine (conj (conj _ _) (conj (conj _ _) (conj _ _)));
    try lia; try assumption;
    intros y Hy;
    try (apply in_app_iff in Hy; destruct Hy as [Hy | [<- | []]]; [| simpl; lia]);
    try (apply filter_In in Hy; destruct Hy as [Hy _]);
    try (apply in_map_iff in Hy; destruct Hy as (y0 & <- & Hy); id_kept);
    first [apply Hms in Hy | apply Hts in Hy | apply Hxs in Hy]; lia.
Qed.

Lemma run_ids_in_range scorer (trace : list (env * request)) :
  ids_in_range (run scorer trace empty_store).
Proof.
  apply run_effects; [apply effect_ids_in_range |].
  unfold ids_in_range, int4_max. simpl. repeat split; try lia; intros ? [].
Qed.

Lemma int4_max_in_range (i last : Z) :
  1 <= i <= last -> 0 <= last <= int4_max -> in_int4 i = true.
Proof.
  unfold in_int4, int4_max. intros H1 H2.
  apply andb_true_iff. split; apply Z.leb_le; lia.
Qed.

(** ** Confirming twice *)

(** C6, counterexample: a tithe entered manually is confirmed; confirming
    it again as an offering is answered with success and changes its
    category. *)
Lemma confirm_again_changes_category :
  status_of 1 Demo.one_tithe = Some confirmado
  /\ ~ noop_or_error
         (manage_transactions Demo.e (confirm (Some "oferta") (Some 1)) Demo.one_tithe)
         Demo.one_tithe.
Proof.
  split; [reflexivity |].
  intros [H | H].
  - vm_compute in H. discriminate H.
  - apply H. reflexivity.
Qed.

(** C6, as the code has it: confirming a transaction that is already
    confirmed is not guarded.  With a category that fits its column it is
    answered with success; it leaves members, expenses and every other
    transaction as they were, and leaves the transaction itself unchanged
    except for its category, which becomes the supplied one as the column
    stores it.  With a category that does not fit it is answered with
    status 500 and nothing changes. *)
Theorem confirm_again_overwrites_category (e : env) (s : store)
    (ty : option string) (i : Z) :
  db_up e = true ->
  let o := manage_transactions e (confirm ty (Some i)) s in
  (forall ty',
      varchar_opt 20 ty = Some ty' ->
      answer o = sucesso
      /\ members (after o) = members s
      /\ expenses (after o) = expenses s
      /\ forall k t,
           nth_error (transactions s) k = Some t ->
           (t_id t <> i -> nth_error (transactions (after o)) k = Some t)
           /\ (t_id t = i -> t_status t = confirmado ->
               nth_error (transactions (after o)) k = Some (recategorised ty' t)))
  /\ (varchar_opt 20 ty = None -> o = mkOutcome s server_error []).
Proof.
  intros Hdb. unfold manage_transactions. rewrite Hdb. simpl. split.
  - intros ty' ->. simpl.
    split; [reflexivity |]. split; [reflexivity |]. split; [reflexivity |].
    intros k t Hk. rewrite nth_error_map, Hk. simpl. unfold confirm_row, recategorised.
    split.
    + intros Hne. destruct (Z.eqb_spec (t_id t) i); [contradiction | reflexivity].
    + intros Hid Hst. rewrite <- Hst.
      destruct (Z.eqb_spec (t_id t) i); [reflexivity | contradiction].
  - now intros ->.
Qed.

(** ** Ids that name no row *)

(** C9, counterexample: on an empty database, confirming transaction 7,
    deleting member 7 and deleting expense 7 are all answered with the
    ordinary success message. *)
Lemma missing_id_reported_as_success :
  ~ reports_not_found
      (manage_transactions Demo.e (confirm (Some "dizimo") (Some 7)) empty_store)
  /\ ~ reports_not_found
         (manage_members Demo.e (members_DELETE (Some (integer 7))) empty_store)
  /\ ~ reports_not_found
         (manage_expenses Demo.e (expenses_DELETE (Some (integer 7))) empty_store).
Proof. repeat split; intros H; apply H; reflexivity. Qed.

Lemma map_confirm_row_absent (ty : option string) (i : Z) (ts : list transaction) :
  (forall t, In t ts -> t_id t <> i) -> map (confirm_row ty i) ts = ts.
Proof.
  intros H. induction ts as [| t ts IH]; simpl; [reflexivity |].
  rewrite IH by (intros t' Ht'; apply H; now right).
  unfold confirm_row. destruct (Z.eqb_spec (t_id t) i) as [E | _]; [| reflexivity].
  exfalso. apply (H t); [now left | exact E].
Qed.

Lemma filter_absent {A} (key : A -> Z) (i : Z) (l : list A) :
  (forall x, In x l -> key x <> i) -> filter (fun x => negb (key x =? i)) l = l.
Proof.
  intros H. induction l as [| x l IH]; simpl; [reflexivity |].
  rewrite IH by (intros x' Hx'; apply H; now right).
  destruct (Z.eqb_spec (key x) i) as [E | _]; [| reflexivity].
  exfalso. apply (H x); [now left | exact E].
Qed.

Lemma map_set_null_absent (i : Z) (ts : list transaction) :
  (forall t, In t ts -> t_member_id t <> Some i) -> map (set_null_member i) ts = ts.
Proof.
  intros H. induction ts as [| t ts IH]; simpl; [reflexivity |].
  rewrite IH by (intros t' Ht'; apply H; now right).
  unfold set_null_member.
  destruct (t_member_id t) as [j |] eqn:Hj; simpl; [| reflexivity].
  destruct (Z.eqb_spec j i) as [-> | _]; [| reflexivity].
  exfalso. apply (H t); [now left | exact Hj].
Qed.

(** C9, as the code has it: on any store the application can reach, an
    operator action naming an id that no row has (confirming a transaction
    with a category that fits its column, deleting a member or an expense
    by an id within the range of [INTEGER]) leaves the whole database as it
    was and is answered with the same success message as for an existing
    id.  A deletion by an id outside that range, and a confirmation with a
    category that does not fit, are answered with status 500 and change
    nothing. *)
Theorem missing_id_is_silent_success (scorer : string -> string -> Q)
    (trace : list (env * request)) (e : env) (ty : option string) (i : Z) :
  db_up e = true ->
  let s := run scorer trace empty_store in
  ((forall t, In t (transactions s) -> t_id t <> i) -> varchar_opt 20 ty <> None ->
   manage_transactions e (confirm ty (Some i)) s = mkOutcome s sucesso [])
  /\ ((forall m, In m (members s) -> m_id m <> i) -> in_int4 i = true ->
      manage_members e (members_DELETE (Some (integer i))) s
      = mkOutcome s (mkResponse 200 (JMsg "Membro removido")) [])
  /\ ((forall x, In x (expenses s) -> e_id x <> i) -> in_int4 i = true ->
      manage_expenses e (expenses_DELETE (Some (integer i))) s
      = mkOutcome s (mkResponse 200 (JMsg "Despesa removida")) [])
  /\ (in_int4 i = false ->
      manage_members e (members_DELETE (Some (integer i))) s
      = mkOutcome s server_error []
      /\ manage_expenses e (expenses_DELETE (Some (integer i))) s
         = mkOutcome s server_error [])
  /\ (varchar_opt 20 ty = None ->
      manage_transactions e (confirm ty (Some i)) s = mkOutcome s server_error []).
Proof.
  intros Hdb s.
  pose proof (run_references scorer trace) as Hfk. fold s in Hfk.
  unfold manage_transactions, manage_members, manage_expenses. rewrite Hdb.
  split; [| split; [| split; [| split]]].
  - intros Habs Hty. destruct (varchar_opt 20 ty) as [ty' |]; [| contradiction].
    rewrite map_confirm_row_absent by exact Habs. now destruct s.
  - intros Habs ->. unfold delete_member.
    rewrite (filter_absent m_id) by exact Habs.
    rewrite map_set_null_absent; [now destruct s |].
    intros t Ht Hi. destruct (Hfk t i Ht Hi) as (m & Hm & Hid).
    now apply (Habs m Hm).
  - intros Habs ->. unfold delete_expense.
    rewrite (filter_absent e_id) by exact Habs. now destruct s.
  - now intros ->.
  - now intros ->.
Qed.

(** ** The dashboard *)

(** C7, at the failing input: on 4 November 2026 the dashboard reports an
    inflow and a balance of 50.00 for a store whose only transaction is
    dated 15 November 2025, while the statement for November 2026 selects
    no inflow at all from the same store. *)
Theorem dashboard_counts_other_years :
  answer (get_dashboard Demo.e DemoDashboard.old_offering)
  = mkResponse 200 (JDashboard 5000 0 5000)
  /\ select_inflows 11 2026 DemoDashboard.old_offering = []
  /\ select_inflows 11 2025 DemoDashboard.old_offering <> [].
Proof. repeat split. discriminate. Qed.

(** ** The balance of the statement *)

(** C3, at the failing input: with a previous balance of 10 ^ 16 and a
    single confirmed inflow of 1.00 in the month, the summary of the
    statement prints a total inflow of 1.00 and a closing balance of
    10 ^ 16, not 10 ^ 16 + 1, under either summation, so the balance is
    not exact to the cent; and with a previous balance of 0.10 and a single
    inflow of 0.20 the closing balance is not the float of 0.30.  The
    dashboard, which subtracts decimals, answers the exact 1.00 for the
    same store. *)
Theorem report_balance_is_binary_float :
  (forall alg,
      option_map (summary_block DemoBalance.huge)
                 (report_totals alg DemoBalance.huge
                    (select_inflows 11 2026 (DemoBalance.one_entry 100))
                    (select_outflows 11 2026 (DemoBalance.one_entry 100)))
      = Some [ cell_ln 0 10 "Saldo Mes Anterior: R$ 10000000000000000.00";
               cell_ln 0 10 "(+) Total Entradas: R$ 1.00";
               cell_ln 0 10 "(-) Total Saidas: R$ 0.00";
               cell_ln 0 10 "(=) Saldo a Transportar: R$ 10000000000000000.00" ])
  /\ ~ balance_exact_to_cents Py.left_to_right DemoBalance.huge
         (select_inflows 11 2026 (DemoBalance.one_entry 100)) []
  /\ ~ balance_exact_to_cents Py.compensated DemoBalance.huge
         (select_inflows 11 2026 (DemoBalance.one_entry 100)) []
  /\ option_map final_balance
       (report_totals Py.left_to_right (float_of_cents 10)
                      (select_inflows 11 2026 (DemoBalance.one_entry 20)) [])
     <> Some (float_of_cents 30)
  /\ option_map final_balance
       (report_totals Py.compensated (float_of_cents 10)
                      (select_inflows 11 2026 (DemoBalance.one_entry 20)) [])
     <> Some (float_of_cents 30)
  /\ answer (get_dashboard Demo.e (DemoBalance.one_entry 100))
     = mkResponse 200 (JDashboard 100 0 100).
Proof.
  split; [intros []; vm_compute; reflexivity |].
  repeat split; try intros H.
  - specialize (H _ 1000000000000000000 eq_refl eq_refl). discriminate H.
  - specialize (H _ 1000000000000000000 eq_refl eq_refl). discriminate H.
  - apply (f_equal (option_map Prim2SF)) in H. discriminate H.
  - apply (f_equal (option_map Prim2SF)) in H. discriminate H.
Qed.

(** ** The tables and the summary of the statement *)

Lemma printed_sum_repeat (x : float) (c : Z) (n : nat) :
  printed_cents (round2 x) = Some c ->
  printed_sum (repeat x n) = Some (Z.of_nat n * c).
Proof.
  intros Hx. induction n as [| n IH].
  - reflexivity.
  - change (repeat x (S n)) with (x :: repeat x n).
    change (printed_sum (x :: repeat x n))
      with (match printed_cents (round2 x), printed_sum (repeat x n) with
            | Some c, Some t => Some (c + t)
            | _, _ => None
            end).
    rewrite Hx, IH. f_equal. lia.
Qed.

(** Every offering of the demo store is selected for November 2026. *)
Lemma gifts_floats (n : nat) (i : Z) (s : store) :
  floats_of (map i_amount
               (map (fun t => mkInflowRow (t_amount t) (t_transaction_date t) (t_type t)
                                          (member_code s (t_member_id t)))
                    (filter (report_inflow_row 11 2026) (DemoStatement.gifts_from i n))))
  = Some (repeat (float_of_cents 9999999999) n).
Proof.
  revert i. induction n as [| n IH]; intros i.
  - reflexivity.
  - change (DemoStatement.gifts_from i (S n))
      with (DemoStatement.gift i :: DemoStatement.gifts_from (i + 1) n).
    change (filter (report_inflow_row 11 2026)
                   (DemoStatement.gift i :: DemoStatement.gifts_from (i + 1) n))
      with (DemoStatement.gift i
            :: filter (report_inflow_row 11 2026) (DemoStatement.gifts_from (i + 1) n)).
    cbn [map floats_of]. rewrite IH. reflexivity.
Qed.

(** C8, at the failing input: with 2225 offerings of 99999999.99 in the
    month the table amounts add up to 222499999977.75 while the summary
    prints a total inflow of 222499999977.74 when floats are added left to
    right; with 703737 such offerings the table amounts add up to
    70373699992962.63 while the summary prints 70373699993465.52 when
    floats are added left to right and 70373699992962.62 when they are
    added with compensation. *)
Theorem statement_total_differs_from_rows :
  option_map (fun t => money (total_in t))
             (report_totals Py.left_to_right Py.zero
                (select_inflows 11 2026 (DemoStatement.gifts 2225)) [])
  = Some "R$ 222499999977.74"
  /\ ~ inflow_table_matches Py.left_to_right
         (select_inflows 11 2026 (DemoStatement.gifts 2225))
  /\ ~ inflow_table_matches Py.left_to_right
         (select_inflows 11 2026 (DemoStatement.gifts 703737))
  /\ ~ inflow_table_matches Py.compensated
         (select_inflows 11 2026 (DemoStatement.gifts 703737)).
Proof.
  split; [| split; [| split]];
    unfold inflow_table_matches, report_totals, select_inflows, DemoStatement.gifts;
    cbn [transactions]; rewrite gifts_floats;
    try rewrite (printed_sum_repeat _ 9999999999) by reflexivity.
  - vm_compute. reflexivity.
  - assert (E : printed_cents
                  (round2 (Py.sum Py.left_to_right
                             (repeat (float_of_cents 9999999999) (N.to_nat 2225))))
                = Some 22249999997774) by (vm_compute; reflexivity).
    rewrite E, N_nat_Z. intros [= H].
  - assert (E : printed_cents
                  (round2 (Py.sum Py.left_to_right
                             (repeat (float_of_cents 9999999999) (N.to_nat 703737))))
                = Some 7037369999346552) by (vm_compute; reflexivity).
    rewrite E, N_nat_Z. intros [= H].
  - assert (E : printed_cents
                  (round2 (Py.sum Py.compensated
                             (repeat (float_of_cents 9999999999) (N.to_nat 703737))))
                = Some 7037369999296262) by (vm_compute; reflexivity).
    rewrite E, N_nat_Z. intros [= H].
Qed.

(** ** The theorems at concrete inputs *)

Lemma resolver_threshold_witness :
  85 <= max_score Demo.exact "Joao Silva" Demo.ana_1 [Demo.joao]
  /\ exists w, In w [Demo.ana_1; Demo.joao]
               /\ reported Demo.exact "Joao Silva" (m_full_name w)
                  = max_score Demo.exact "Joao Silva" Demo.ana_1 [Demo.joao]
               /\ best_match_id Demo.exact "Joao Silva" [Demo.ana_1; Demo.joao]
                  = Some (m_id w).
Proof.
  split; [apply Z.leb_le; reflexivity |].
  apply (proj1 (proj2 (resolver_threshold Demo.exact "Joao Silva")
                      Demo.ana_1 [Demo.joao])).
  apply Z.leb_le. reflexivity.
Defined.

Lemma duplicate_names_link_last_witness :
  NoDup (map m_id [Demo.ana_1; Demo.ana_2])
  /\ best_match_id Demo.exact "Ana Lima" [Demo.ana_1; Demo.ana_2]
     <> Some (m_id Demo.ana_1).
Proof.
  assert (Hnd : NoDup (map m_id [Demo.ana_1; Demo.ana_2])).
  { simpl. apply NoDup_cons; [intros [H | []]; discriminate H |].
    apply NoDup_cons; [intros [] | apply NoDup_nil]. }
  split; [exact Hnd |].
  apply (proj2 (duplicate_names_link_last Demo.exact "Ana Lima"
                                          [Demo.ana_1; Demo.ana_2])
               Hnd [] Demo.ana_1 [Demo.ana_2] Demo.ana_2 eq_refl
               (or_introl eq_refl) eq_refl).
Defined.

Lemma webhook_idempotent_witness :
  varchar 50 (str (IdStr "pay_1")) = Some "pay_1"
  /\ transactions_id_seq (run Demo.exact [] empty_store) < int4_max
  /\ List.length
       (rows_with_mp_id "pay_1"
          (transactions (Nat.iter 3 (deliver Demo.exact Demo.e Demo.pay_1)
                                  (run Demo.exact [] empty_store))))
     = 1%nat.
Proof.
  split; [reflexivity |]. split; [reflexivity |].
  apply (proj2 (proj2 (webhook_idempotent Demo.exact))
               Demo.e Demo.pay_1 Demo.gw (IdStr "pay_1")
               (mkPayment "approved" (Py.Str "Joao") (Py.Str "Silva") 10000
                          (Some (mkTimestamp (Demo.nov 3) 0)))
               "pay_1" [] 3%nat);
    try reflexivity.
  - intros H. vm_compute in H. discriminate H.
  - apply Nat.leb_le. reflexivity.
Defined.

Lemma webhook_always_acknowledges_witness :
  acknowledged (mp_webhook Demo.exact Demo.e Demo.pay_1 empty_store)
  /\ mp_webhook Demo.exact Demo.e Demo.pay_2 empty_store
     = mkOutcome empty_store ok [IdStr "pay_2"]
  /\ mp_webhook Demo.exact Demo.unconfigured json_other empty_store
     = mkOutcome empty_store (mkResponse 500 (JError "SDK não configurado")) [].
Proof.
  split; [| split].
  - apply (proj1 (webhook_always_acknowledges
                    Demo.exact Demo.e Demo.pay_1 json_other empty_store)
                 Demo.gw eq_refl).
    intros _ H. discriminate H.
  - apply (proj1 (proj2 (webhook_always_acknowledges
                           Demo.exact Demo.e Demo.pay_2 json_other empty_store))
                 Demo.gw (IdStr "pay_2"));
      reflexivity.
  - apply (proj2 (proj2 (webhook_always_acknowledges
                           Demo.exact Demo.unconfigured Demo.pay_2 json_other
                           empty_store))).
    reflexivity.
Defined.

Lemma confirmed_is_final_witness :
  status_of 1 Demo.one_tithe = Some confirmado
  /\ status_of 1
       (run Demo.exact
            [ (Demo.e, POST_webhook_mercadopago Demo.pay_1);
              (Demo.e, api_transactions (confirm (Some "oferta") (Some 1)));
              (Demo.e, api_members (members_DELETE (Some (integer 1))));
              (Demo.e, GET_api_dashboard) ]
            Demo.one_tithe)
     = Some confirmado.
Proof.
  split; [reflexivity |].
  apply (confirmed_is_final Demo.exact). reflexivity.
Defined.

Lemma confirm_again_overwrites_category_witness :
  db_up Demo.e = true
  /\ varchar_opt 20 (Some "oferta") = Some (Some "oferta")
  /\ answer (manage_transactions Demo.e (confirm (Some "oferta") (Some 1))
                                 Demo.one_tithe)
     = sucesso
  /\ varchar_opt 20 (Some "oferta de gratidao especial") = None
  /\ manage_transactions Demo.e (confirm (Some "oferta de gratidao especial") (Some 1))
                         Demo.one_tithe
     = mkOutcome Demo.one_tithe server_error [].
Proof.
  split; [reflexivity |]. split; [reflexivity |]. split.
  - apply (proj1 (confirm_again_overwrites_category
                    Demo.e Demo.one_tithe (Some "oferta") 1 eq_refl)
                 (Some "oferta") eq_refl).
  - split; [reflexivity |].
    apply (proj2 (confirm_again_overwrites_category
                    Demo.e Demo.one_tithe (Some "oferta de gratidao especial") 1
                    eq_refl)).
    reflexivity.
Defined.

Lemma missing_id_is_silent_success_witness :
  db_up Demo.e = true
  /\ in_int4 7 = true
  /\ manage_members Demo.e (members_DELETE (Some (integer 7)))
                    (run Demo.exact [(Demo.e, POST_webhook_mercadopago Demo.pay_1)]
                         empty_store)
     = mkOutcome (run Demo.exact [(Demo.e, POST_webhook_mercadopago Demo.pay_1)]
                      empty_store)
                 (mkResponse 200 (JMsg "Membro removido")) []
  /\ in_int4 2147483648 = false
  /\ manage_expenses Demo.e (expenses_DELETE (Some (integer 2147483648)))
                     (run Demo.exact [(Demo.e, POST_webhook_mercadopago Demo.pay_1)]
                          empty_store)
     = mkOutcome (run Demo.exact [(Demo.e, POST_webhook_mercadopago Demo.pay_1)]
                      empty_store)
                 server_error [].
Proof.
  split; [reflexivity |]. split; [reflexivity |]. split.
  - apply (proj1 (proj2 (missing_id_is_silent_success
                           Demo.exact [(Demo.e, POST_webhook_mercadopago Demo.pay_1)]
                           Demo.e None 7 eq_refl))).
    + intros m [].
    + reflexivity.
  - split; [reflexivity |].
    apply (proj2 (proj1 (proj2 (proj2 (proj2
             (missing_id_is_silent_success
                Demo.exact [(Demo.e, POST_webhook_mercadopago Demo.pay_1)]
                Demo.e None 2147483648 eq_refl)))) eq_refl)).
Defined.

(** ** The scenarios of the specification *)

Module Scenarios.

(** Scenario A: one approved notification gives one pending transaction,
    linked to the member, of 100.00. *)
Example scenario_a :
  transactions (deliver Demo.exact Demo.e Demo.pay_1 Demo.roster)
  = [ mkTransaction 1 (Some "pay_1") (Some "Joao Silva") (Some 1) (Some 10000)
                    (Some (mkTimestamp (Demo.nov 3) 0)) pendente pix None ].
Proof. reflexivity. Qed.

(** Scenario B: the same notification delivered twice still gives that one
    transaction. *)
Example scenario_b :
  transactions (deliver Demo.exact Demo.e Demo.pay_1
                        (deliver Demo.exact Demo.e Demo.pay_1 Demo.roster))
  = transactions (deliver Demo.exact Demo.e Demo.pay_1 Demo.roster).
Proof. reflexivity. Qed.

(** Scenario C: without a close match in the roster the transaction is
    created unlinked. *)
Example scenario_c :
  map t_member_id
      (transactions
         (deliver Demo.exact Demo.e Demo.pay_1
            (after (manage_members Demo.e
                      (members_POST (Some "M09") (Some "Empresa XPTO LTDA") None)
                      empty_store))))
  = [None].
Proof. reflexivity. Qed.

(** Scenario D: inflow 500.00, outflow 120.00 and previous balance 1000.00
    give a closing balance line of 1380.00. *)
Example scenario_d :
  let s := run Demo.exact
             [ (Demo.e, api_transactions
                          (manual_add (Some "Maria") (Some 50000) (Some "dizimo")));
               (Demo.e, api_expenses
                          (expenses_POST (Some "Luz") None (Some 12000)
                                         (Some (Demo.nov 2)))) ]
             empty_store in
  option_map (summary_block (float_of_cents 100000))
             (report_totals Py.left_to_right (float_of_cents 100000)
                            (select_inflows 11 2026 s) (select_outflows 11 2026 s))
  = Some [ cell_ln 0 10 "Saldo Mes Anterior: R$ 1000.00";
           cell_ln 0 10 "(+) Total Entradas: R$ 500.00";
           cell_ln 0 10 "(-) Total Saidas: R$ 120.00";
           cell_ln 0 10 "(=) Saldo a Transportar: R$ 1380.00" ].
Proof. vm_compute. reflexivity. Qed.

End Scenarios.

(** * Further properties of the handlers *)

(** ** The shape of every change to the transactions *)

Lemma same_entry_refl (t : transaction) : same_entry t t.
Proof. repeat split. Qed.

Lemma same_entry_trans (a b c : transaction) :
  same_entry a b -> same_entry b c -> same_entry a c.
Proof.
  unfold same_entry. intros (A1 & A2 & A3 & A4 & A5 & A6) (B1 & B2 & B3 & B4 & B5 & B6).
  repeat split; congruence.
Qed.

Lemma row_change_same_entry (f : transaction -> transaction) (t : transaction) :
  row_change f -> same_entry t (f t).
Proof.
  intros [| ty i | i].
  - apply same_entry_refl.
  - unfold confirm_row. destruct (t_id t =? i); repeat split.
  - unfold set_null_member.
    destruct (option_eqb Z.eqb (t_member_id t) (Some i)); repeat split.
Qed.

Lemma rows_unchanged (s s' : store) :
  transactions s' = transactions s ->
  exists f extra,
    row_change f /\ new_rows s extra
    /\ transactions s' = (map f (transactions s) ++ extra)%list.
Proof.
  intros E. exists (fun t => t), []. repeat split; try constructor.
  now rewrite map_id, app_nil_r.
Qed.

Lemma effect_rows (s s' : store) :
  effect s s' ->
  exists f extra,
    row_change f /\ new_rows s extra
    /\ transactions s' = (map f (transactions s) ++ extra)%list.
Proof.
  intros [| id Hid | id c n b Hid Hc | id Hid
          | id Hid | id mp payer mid amount d Hid Hmp Hmid
          | ty id | id name amount ty now Hid
          | id Hid | id d c a dt Hid | id Hid];
    try (now apply rows_unchanged);
    try (apply nextval_next in Hid; destruct Hid as [-> Hlt]).
  - exists (set_null_member id), []. repeat split; try constructor.
    simpl. now rewrite app_nil_r.
  - eexists (fun t => t), _. split; [constructor |]. split.
    + now apply nr_pix with (mp := mp) (payer := payer) (mid := mid) (amount := amount)
                            (d := d).
    + simpl. now rewrite map_id.
  - exists (confirm_row ty id), []. repeat split; try constructor.
    simpl. now rewrite app_nil_r.
  - eexists (fun t => t), _. split; [constructor |]. split.
    + apply nr_manual with (name := name) (amount := amount) (ty := ty) (now := now).
    + simpl. now rewrite map_id.
Qed.

Lemma handle_rows scorer (e : env) (r : request) (s : store) :
  exists f extra,
    row_change f /\ new_rows s extra
    /\ transactions (after (handle scorer e r s))
       = (map f (transactions s) ++ extra)%list.
Proof. apply effect_rows, handle_effect. Qed.

(** ** What never changes in the ledger *)

(** X5: a transaction is never deleted or moved, and its id, external id,
    payer name, amount, date and origin are never rewritten: after any run
    of requests the row at each position of the transactions relation
    still carries them. *)
Theorem ledger_entries_are_permanent (scorer : string -> string -> Q)
    (trace : list (env * request)) (s : store) (k : nat) (t : transaction) :
  nth_error (transactions s) k = Some t ->
  exists t', nth_error (transactions (run scorer trace s)) k = Some t'
             /\ same_entry t t'.
Proof.
  revert s t. unfold run.
  induction trace as [| [e r] trace IH]; intros s t Hk; simpl.
  - exists t. split; [exact Hk | apply same_entry_refl].
  - destruct (handle_rows scorer e r s) as (f & extra & Hf & _ & E).
    assert (Hk' : nth_error (transactions (after (handle scorer e r s))) k = Some (f t)).
    { rewrite E, nth_error_app1.
      - now rewrite nth_error_map, Hk.
      - rewrite length_map. apply nth_error_Some. congruence. }
    destruct (IH _ _ Hk') as (t' & Ht' & Hsame).
    exists t'. split; [exact Ht' |].
    eapply same_entry_trans; [apply row_change_same_entry; exact Hf | exact Hsame].
Qed.

(** ** What the origin of a row guarantees *)

Lemma row_change_well_formed (f : transaction -> transaction) (t : transaction) :
  row_change f -> well_formed_row t -> well_formed_row (f t).
Proof.
  intros [| ty i | i] Hw; [exact Hw | |].
  - unfold confirm_row. destruct (t_id t =? i); [| exact Hw].
    destruct Hw as [Ho _]. unfold well_formed_row in *. simpl.
    split; [| discriminate].
    destruct (t_origin t); [exact Ho |]. tauto.
  - unfold set_null_member.
    destruct (option_eqb Z.eqb (t_member_id t) (Some i)); [| exact Hw].
    destruct Hw as [Ho Hp]. unfold well_formed_row in *. simpl.
    split; [| exact Hp].
    destruct (t_origin t); [exact Ho |]. tauto.
Qed.

(** X4: on every store the application can reach, a transaction that came
    from the webhook carries an external id, a payer name and an amount;
    a manual one carries no external id, is linked to no member and is
    confirmed; and a pending transaction has no category yet. *)
Theorem rows_follow_their_origin (scorer : string -> string -> Q)
    (trace : list (env * request)) (t : transaction) :
  In t (transactions (run scorer trace empty_store)) -> well_formed_row t.
Proof.
  revert t.
  apply (run_effects scorer (fun s => forall t, In t (transactions s) -> well_formed_row t));
    [| intros t []].
  intros s s' Heff Hs t.
  destruct (effect_rows s s' Heff) as (f & extra & Hf & Hnew & ->).
  intros Ht. apply in_app_iff in Ht. destruct Ht as [Ht | Ht].
  - apply in_map_iff in Ht. destruct Ht as (t0 & <- & Ht0).
    apply row_change_well_formed; auto.
  - destruct Hnew as [| mp payer mid amount d _ _ | name amount ty now];
      [destruct Ht | |]; destruct Ht as [<- | []]; unfold well_formed_row; simpl;
      repeat split; try discriminate; reflexivity.
Qed.

(** ** Keys *)

(** A [DELETE] keeps the remaining values of a column distinct. *)
Lemma delete_keeps_distinct {A B} (l : list A) (col : A -> B) (keep : A -> bool)
    (Hl : NoDup (map col l)) :
  NoDup (map col (filter keep l)).
Proof.
  induction l as [| x l IH]; simpl in *; [exact Hl |].
  apply NoDup_cons_iff in Hl. destruct Hl as [Hx Hl].
  destruct (keep x); simpl; [| now apply IH].
  apply NoDup_cons; [| now apply IH].
  intros Hin. apply Hx. apply in_map_iff in Hin. destruct Hin as (y & E & Hy).
  apply filter_In in Hy. apply in_map_iff. exists y. tauto.
Qed.

Lemma NoDup_map_snoc {A B} (f : A -> B) (l : list A) (x : A) :
  NoDup (map f l) -> ~ In (f x) (map f l) -> NoDup (map f (l ++ [x])).
Proof.
  intros Hl Hx. rewrite map_app. simpl.
  apply NoDup_app; [exact Hl | apply NoDup_cons; [intros [] | apply NoDup_nil] |].
  intros y Hy [<- | []]. contradiction.
Qed.

Lemma NoDup_map_same {A B} (f : A -> B) (l : list A) (x y : A) :
  NoDup (map f l) -> In x l -> In y l -> f x = f y -> x = y.
Proof.
  induction l as [| z l IH]; simpl; [tauto |].
  intros H. apply NoDup_cons_iff in H. destruct H as [Hz Hl].
  intros [-> | Hx] [-> | Hy] E; auto.
  - exfalso. apply Hz. rewrite E. now apply in_map.
  - exfalso. apply Hz. rewrite <- E. now apply in_map.
Qed.

Lemma existsb_code_false (c : string) (ms : list member) :
  existsb (fun m => String.eqb (m_code m) c) ms = false -> ~ In c (map m_code ms).
Proof.
  induction ms as [| m ms IH]; simpl; [tauto |].
  destruct (String.eqb_spec (m_code m) c) as [E | Hne]; simpl; [discriminate |].
  intros H [E | Hin]; [contradiction | now apply IH].
Qed.

(** A key below the next value of the sequence is new to the column. *)
Lemma fresh_key {A} (key : A -> Z) (l : list A) (last : Z) :
  (forall x, In x l -> key x <= last) -> ~ In (last + 1) (map key l).
Proof.
  intros Hle Hin. apply in_map_iff in Hin. destruct Hin as (x & E & Hx).
  specialize (Hle x Hx). lia.
Qed.

Lemma effect_keys_unique (s s' : store) :
  effect s s' -> keys_unique s -> keys_unique s'.
Proof.
  unfold keys_unique.
  intros [| id Hid | id c n b Hid Hc | id Hid
          | id Hid | id mp payer mid amount d Hid Hmp Hmid
          | ty id | id name amount ty now Hid
          | id Hid | id d c a dt Hid | id Hid]
         (Hmid' & Hcode & Hmle & Hxid & Hxle);
    try (apply nextval_next in Hid; destruct Hid as [-> Hlt]);
    simpl; refine (conj _ (conj _ (conj _ (conj _ _))));
    try assumption;
    try (now apply delete_keeps_distinct);
    try (apply NoDup_map_snoc; [assumption |]; simpl;
         first [now apply fresh_key | now apply existsb_code_false]);
    intros y Hy;
    try (apply in_app_iff in Hy; destruct Hy as [Hy | [<- | []]]; [| simpl; lia]);
    try (apply filter_In in Hy; destruct Hy as [Hy _]);
    first [apply Hmle in Hy | apply Hxle in Hy]; lia.
Qed.

Lemma run_keys_unique scorer (trace : list (env * request)) :
  keys_unique (run scorer trace empty_store).
Proof.
  apply run_effects; [apply effect_keys_unique |].
  repeat split; simpl; try constructor; intros ? [].
Qed.

(** X6: on every store the application can reach, member ids, member
    codes, expense ids and transaction ids are each free of repetitions,
    and every id is at most the last value its sequence handed out, so an
    id is never used twice. *)
Theorem keys_are_never_reused (scorer : string -> string -> Q)
    (trace : list (env * request)) :
  let s := run scorer trace empty_store in
  NoDup (map m_id (members s)) /\ NoDup (map m_code (members s))
  /\ NoDup (map e_id (expenses s)) /\ NoDup (map t_id (transactions s))
  /\ (forall m, In m (members s) -> m_id m <= members_id_seq s)
  /\ (forall x, In x (expenses s) -> e_id x <= expenses_id_seq s)
  /\ (forall t, In t (transactions s) -> t_id t <= transactions_id_seq s).
Proof.
  intros s.
  destruct (run_keys_unique scorer trace) as (H1 & H2 & H3 & H4 & H5).
  destruct (run_ids_fresh scorer trace) as (H6 & H7).
  repeat split; assumption.
Qed.

(** X7: on every store the application can reach, a transaction linked to
    a member is linked to exactly one existing member. *)
Theorem links_point_to_one_member (scorer : string -> string -> Q)
    (trace : list (env * request)) (t : transaction) (i : Z) :
  let s := run scorer trace empty_store in
  In t (transactions s) -> t_member_id t = Some i ->
  exists m, In m (members s) /\ m_id m = i
            /\ forall m', In m' (members s) -> m_id m' = i -> m' = m.
Proof.
  intros s Ht Hi.
  destruct (run_references scorer trace t i Ht Hi) as (m & Hm & Hid).
  exists m. repeat split; auto.
  intros m' Hm' Hid'.
  destruct (run_keys_unique scorer trace) as (Hnd & _).
  apply (NoDup_map_same m_id (members s)); auto. congruence.
Qed.

(** ** Deleting a member *)

Lemma filter_map_commute {A} (p : A -> bool) (f : A -> A) (l : list A) :
  (forall x, p (f x) = p x) -> filter p (map f l) = map f (filter p l).
Proof.
  intros H. induction l as [| x l IH]; simpl; [reflexivity |].
  rewrite H. destruct (p x); simpl; now rewrite IH.
Qed.

Lemma set_null_member_selected (i : Z) (t : transaction) :
  t_status (set_null_member i t) = t_status t
  /\ t_transaction_date (set_null_member i t) = t_transaction_date t
  /\ t_amount (set_null_member i t) = t_amount t
  /\ t_type (set_null_member i t) = t_type t.
Proof.
  unfold set_null_member.
  destruct (option_eqb Z.eqb (t_member_id t) (Some i)); repeat split.
Qed.

(** X8: deleting a member by an id within the range of [INTEGER] removes
    exactly the members with that id, keeps every transaction in place
    with its entry, status and category, clears the member link of those
    that pointed to the deleted member and of no other, and changes
    neither the expenses nor any total of the dashboard or of a
    statement. *)
Theorem deleting_a_member_unlinks (e : env) (s : store) (i : Z) :
  db_up e = true -> in_int4 i = true ->
  let s' := after (manage_members e (members_DELETE (Some (integer i))) s) in
  (forall m, In m (members s') <-> In m (members s) /\ m_id m <> i)
  /\ (forall k t,
         nth_error (transactions s) k = Some t ->
         exists t', nth_error (transactions s') k = Some t'
                    /\ same_entry t t' /\ t_status t' = t_status t
                    /\ t_type t' = t_type t
                    /\ t_member_id t'
                       = if option_eqb Z.eqb (t_member_id t) (Some i)
                         then None else t_member_id t)
  /\ List.length (transactions s') = List.length (transactions s)
  /\ expenses s' = expenses s
  /\ (forall today, dashboard_inflow today s' = dashboard_inflow today s)
  /\ (forall mo yr,
         map i_amount (select_inflows mo yr s') = map i_amount (select_inflows mo yr s)).
Proof.
  intros Hdb Hi. unfold manage_members. rewrite Hdb, Hi. simpl.
  split; [| split; [| split; [| split; [| split]]]].
  - intros m. rewrite filter_In. split; intros [Hm Hne]; split; auto.
    + destruct (Z.eqb_spec (m_id m) i); [discriminate | assumption].
    + destruct (Z.eqb_spec (m_id m) i); [contradiction | reflexivity].
  - intros k t Hk. exists (set_null_member i t).
    rewrite nth_error_map, Hk. split; [reflexivity |].
    split; [apply row_change_same_entry; constructor |].
    destruct (set_null_member_selected i t) as (-> & _ & _ & ->).
    repeat split. unfold set_null_member.
    now destruct (option_eqb Z.eqb (t_member_id t) (Some i)).
  - apply length_map.
  - reflexivity.
  - intros today. unfold dashboard_inflow. simpl.
    rewrite filter_map_commute.
    + rewrite map_map. f_equal. apply map_ext. intros t.
      apply (set_null_member_selected i t).
    + intros t. unfold dashboard_inflow_row.
      destruct (set_null_member_selected i t) as (-> & -> & _). reflexivity.
  - intros mo yr. unfold select_inflows. simpl.
    rewrite filter_map_commute.
    + rewrite !map_map. apply map_ext. intros t. simpl.
      apply (set_null_member_selected i t).
    + intros t. unfold report_inflow_row.
      destruct (set_null_member_selected i t) as (-> & -> & _). reflexivity.
Qed.

(** ** Pending payments *)

Lemma mp_webhook_appends_pending scorer (e : env) (b : webhook_body) (s : store) :
  exists extra,
    transactions (after (mp_webhook scorer e b s)) = (transactions s ++ extra)%list
    /\ (forall t, In t extra -> t_status t = pendente)
    /\ members (after (mp_webhook scorer e b s)) = members s
    /\ expenses (after (mp_webhook scorer e b s)) = expenses s
    /\ members_id_seq (after (mp_webhook scorer e b s)) = members_id_seq s
    /\ expenses_id_seq (after (mp_webhook scorer e b s)) = expenses_id_seq s.
Proof.
  assert (Hsame : forall s', transactions s' = transactions s ->
                             members s' = members s -> expenses s' = expenses s ->
                             members_id_seq s' = members_id_seq s ->
                             expenses_id_seq s' = expenses_id_seq s ->
                             exists extra,
                               transactions s' = (transactions s ++ extra)%list
                               /\ (forall t, In t extra -> t_status t = pendente)
                               /\ members s' = members s /\ expenses s' = expenses s
                               /\ members_id_seq s' = members_id_seq s
                               /\ expenses_id_seq s' = expenses_id_seq s).
  { intros s' E1 E2 E3 E4 E5. exists []. rewrite app_nil_r. repeat split; auto.
    intros t []. }
  unfold mp_webhook, record_payment.
  destruct (sdk e) as [gw |]; [| now apply Hsame].
  destruct b as [| n]; [now apply Hsame |].
  destruct (is_payment_event n); [| now apply Hsame].
  destruct (n_data n) as [| [pid |] |]; try (now apply Hsame).
  destruct (truthy pid); [| now apply Hsame].
  destruct (gw pid) as [p |]; [| now apply Hsame]. simpl.
  destruct (String.eqb (p_status p) "approved"); [| now apply Hsame].
  destruct (db_up e); [| now apply Hsame].
  destruct (insert_transaction_on_conflict_do_nothing _ _ _ _ _ _) as [s' |] eqn:E;
    [| now apply Hsame].
  apply insert_cases in E. destruct E as (mp' & payer' & id & _ & _ & _ & _ & ->).
  destruct (has_mp_id mp' (transactions s)); [now apply Hsame |].
  eexists. simpl. split; [reflexivity |]. repeat split.
  intros t [<- | []]. reflexivity.
Qed.

Lemma filter_pending_tail (p : transaction -> bool) (ts extra : list transaction) :
  (forall t, In t extra -> p t = false) -> filter p (ts ++ extra) = filter p ts.
Proof.
  intros H. rewrite filter_app.
  assert (E : filter p extra = []).
  { induction extra as [| x extra IH]; simpl; [reflexivity |].
    rewrite (H x) by now left. apply IH. intros t Ht. apply H. now right. }
  now rewrite E, app_nil_r.
Qed.

(** X3: a webhook delivery changes neither the answer of the dashboard nor
    the answer of a statement request: the transaction it may record is
    pending, and only confirmed transactions are counted or itemized. *)
Theorem pending_payments_are_not_counted (scorer : string -> string -> Q)
    (e e' : env) (n : notification) (s : store) (mo yr : Z) (prev_balance : float) :
  answer (get_dashboard e' (deliver scorer e n s)) = answer (get_dashboard e' s)
  /\ answer (generate_report e' mo yr prev_balance (deliver scorer e n s))
     = answer (generate_report e' mo yr prev_balance s).
Proof.
  destruct (mp_webhook_appends_pending scorer e n s)
    as (extra & Et & Hp & Em & Ee & _).
  fold (deliver scorer e n s) in Et, Em, Ee.
  assert (Hin : forall today,
             dashboard_inflow today (deliver scorer e n s) = dashboard_inflow today s).
  { intros today. unfold dashboard_inflow. rewrite Et, filter_pending_tail; [reflexivity |].
    intros t Ht. unfold dashboard_inflow_row. now rewrite (Hp t Ht). }
  assert (Hout : forall today,
             dashboard_outflow today (deliver scorer e n s) = dashboard_outflow today s).
  { intros today. unfold dashboard_outflow. now rewrite Ee. }
  assert (Hsel : select_inflows mo yr (deliver scorer e n s) = select_inflows mo yr s).
  { unfold select_inflows. rewrite Et, filter_pending_tail.
    - apply map_ext. intros t. unfold member_code. now rewrite Em.
    - intros t Ht. unfold report_inflow_row. now rewrite (Hp t Ht). }
  assert (Hsel' : select_outflows mo yr (deliver scorer e n s) = select_outflows mo yr s).
  { unfold select_outflows. now rewrite Ee. }
  split.
  - unfold get_dashboard. destruct (db_up e'); [| reflexivity].
    simpl. now rewrite Hin, Hout.
  - unfold generate_report. destruct (db_up e'); [| reflexivity].
    rewrite Hsel, Hsel'.
    destruct (report_totals _ _ _ _); [| reflexivity].
    now destruct (compile_pdf _ _ _ _ _ _).
Qed.

(** ** Confirmations *)

Lemma sum_amounts_app (a b : list (option Z)) :
  sum_amounts (a ++ b) = sum_amounts a + sum_amounts b.
Proof.
  unfold sum_amounts. induction a as [| [c |] a IH]; simpl; lia.
Qed.

Lemma confirm_adds_amount (today : date) (ty : option string) (i : Z)
    (ts : list transaction) (t : transaction) :
  NoDup (map t_id ts) -> In t ts -> t_id t = i -> t_status t = pendente ->
  month_of (t_transaction_date t) = Some (month today) ->
  sum_amounts (map t_amount (filter (dashboard_inflow_row today)
                                    (map (confirm_row ty i) ts)))
  = sum_amounts (map t_amount (filter (dashboard_inflow_row today) ts))
    + amount_or_zero t.
Proof.
  intros Hnd Hin Hid Hst Hmo.
  induction ts as [| x ts IH]; [destruct Hin |].
  simpl in Hnd. apply NoDup_cons_iff in Hnd. destruct Hnd as [Hx Hnd].
  change (map (confirm_row ty i) (x :: ts))
    with (confirm_row ty i x :: map (confirm_row ty i) ts).
  destruct Hin as [-> | Hin].
  - (* the confirmed row is the head; no later row has its id *)
    assert (Hrest : map (confirm_row ty i) ts = ts).
    { apply map_confirm_row_absent. intros t' Ht' E. apply Hx.
      rewrite Hid, <- E. now apply in_map. }
    assert (Hafter : dashboard_inflow_row today (confirm_row ty i t) = true).
    { unfold confirm_row. rewrite Hid, Z.eqb_refl.
      unfold dashboard_inflow_row. simpl. rewrite Hmo. simpl. now rewrite Z.eqb_refl. }
    assert (Hbefore : dashboard_inflow_row today t = false).
    { unfold dashboard_inflow_row. now rewrite Hst. }
    assert (Hamount : t_amount (confirm_row ty i t) = t_amount t).
    { unfold confirm_row. now destruct (t_id t =? i). }
    rewrite Hrest. simpl. rewrite Hafter, Hbefore. simpl. rewrite Hamount.
    unfold amount_or_zero. destruct (t_amount t); lia.
  - assert (Hsame : confirm_row ty i x = x).
    { unfold confirm_row. destruct (Z.eqb_spec (t_id x) i) as [E | _]; [| reflexivity].
      exfalso. apply Hx. rewrite E, <- Hid. now apply in_map. }
    rewrite Hsame. simpl.
    destruct (dashboard_inflow_row today x); simpl; rewrite (IH Hnd Hin);
      [destruct (t_amount x) |]; lia.
Qed.

(** X10: on a store the application can reach, confirming a pending
    transaction dated in the current month, with a category that fits its
    column, raises the inflow of the dashboard by exactly its amount (by
    nothing when the amount is [NULL]) and leaves the outflow as it was. *)
Theorem confirming_counts_the_amount (scorer : string -> string -> Q)
    (trace : list (env * request)) (e : env) (today : date)
    (ty : option string) (t : transaction) :
  let s := run scorer trace empty_store in
  db_up e = true -> varchar_opt 20 ty <> None ->
  In t (transactions s) -> t_status t = pendente ->
  month_of (t_transaction_date t) = Some (month today) ->
  let s' := after (manage_transactions e (confirm ty (Some (t_id t))) s) in
  dashboard_inflow today s' = dashboard_inflow today s + amount_or_zero t
  /\ dashboard_outflow today s' = dashboard_outflow today s.
Proof.
  intros s Hdb Hty Hin Hst Hmo. unfold manage_transactions. rewrite Hdb.
  destruct (varchar_opt 20 ty) as [ty' |]; [| contradiction]. simpl.
  split; [| reflexivity].
  unfold dashboard_inflow. simpl.
  apply confirm_adds_amount; auto.
  apply (run_ids_fresh scorer trace).
Qed.

(** X11: a manual entry whose name and category fit their columns, whose
    amount fits and for which the sequence still has an id is counted at
    once: when the database clock is in the month of the dashboard, the
    inflow rises by exactly the amount entered, and the entry is selected
    for the statement of the month and year of the clock, with the
    category as the column stores it. *)
Theorem manual_entry_is_counted_at_once (e : env) (today : date) (s : store)
    (name name' : option string) (c : Z) (ty ty' : option string) :
  db_up e = true -> fits_numeric_10_2 c = true ->
  varchar_opt 255 name = Some name' -> varchar_opt 20 ty = Some ty' ->
  transactions_id_seq s < int4_max ->
  month (on_day (NOW e)) = month today ->
  let s' := after (manage_transactions e (manual_add name (Some c) ty) s) in
  dashboard_inflow today s' = dashboard_inflow today s + c
  /\ select_inflows (month (on_day (NOW e))) (year (on_day (NOW e))) s'
     = (select_inflows (month (on_day (NOW e))) (year (on_day (NOW e))) s
        ++ [mkInflowRow (Some c) (Some (NOW e)) ty' None])%list.
Proof.
  intros Hdb Hfit Hname Hty Hseq Hmo. unfold manage_transactions.
  rewrite Hdb, Hname, Hty, Hfit, (nextval_ready _ Hseq). simpl.
  split.
  - unfold dashboard_inflow. simpl. rewrite filter_app, map_app, sum_amounts_app.
    simpl. unfold dashboard_inflow_row at 2. simpl. rewrite Hmo, Z.eqb_refl. simpl. lia.
  - unfold select_inflows. simpl. rewrite filter_app, map_app. simpl.
    unfold report_inflow_row at 2. simpl. rewrite !Z.eqb_refl. simpl. reflexivity.
Qed.

(** ** Failures *)

Lemma floats_of_null (l : list (option Z)) : In None l -> floats_of l = None.
Proof.
  induction l as [| [c |] l IH]; simpl; [tauto | | reflexivity].
  intros [E | Hin]; [discriminate |]. now rewrite (IH Hin).
Qed.

(** X12: a confirmed transaction without an amount in the requested month
    makes the statement request fail with status 500, leaving the store
    untouched, while the dashboard still answers with status 200. *)
Theorem statement_fails_on_null_amount (e : env) (mo yr : Z) (prev_balance : float)
    (s : store) (t : transaction) :
  db_up e = true -> In t (transactions s) ->
  report_inflow_row mo yr t = true -> t_amount t = None ->
  generate_report e mo yr prev_balance s = mkOutcome s server_error []
  /\ code (answer (get_dashboard e s)) = 200.
Proof.
  intros Hdb Hin Hsel Hnull. unfold generate_report, get_dashboard. rewrite Hdb.
  split; [| reflexivity].
  unfold report_totals. rewrite floats_of_null; [reflexivity |].
  apply in_map_iff.
  exists (mkInflowRow (t_amount t) (t_transaction_date t) (t_type t)
                      (member_code s (t_member_id t))).
  split; [exact Hnull |].
  unfold select_inflows. apply in_map_iff. exists t. split; [reflexivity |].
  apply filter_In. auto.
Qed.

(** The answer of the webhook and its lookups depend on the SDK and on
    the body alone, not on the database. *)
Lemma mp_webhook_answer scorer (e e' : env) (b : webhook_body) (s s' : store) :
  sdk e' = sdk e ->
  answer (mp_webhook scorer e' b s') = answer (mp_webhook scorer e b s)
  /\ lookups (mp_webhook scorer e' b s') = lookups (mp_webhook scorer e b s).
Proof.
  intros Hsdk. unfold mp_webhook. rewrite Hsdk.
  destruct (sdk e) as [gw |]; [| split; reflexivity].
  destruct b as [| n]; [split; reflexivity |].
  destruct (is_payment_event n); [| split; reflexivity].
  destruct (n_data n) as [| [pid |] |]; try (split; reflexivity).
  destruct (truthy pid); [| split; reflexivity].
  destruct (gw pid); split; reflexivity.
Qed.

(** X13: while the database cannot be reached no request changes the
    store; the page answers with status 200, the webhook answers and
    looks the payment up exactly as it would with the database in reach,
    and every data route answers with status 500. *)
Theorem nothing_is_stored_without_a_database (scorer : string -> string -> Q)
    (e : env) (r : request) (s : store) :
  db_up e = false ->
  after (handle scorer e r s) = s
  /\ match r with
     | GET_index => code (answer (handle scorer e r s)) = 200
     | POST_webhook_mercadopago _ =>
         forall e' s', sdk e' = sdk e ->
                       answer (handle scorer e r s) = answer (handle scorer e' r s')
                       /\ lookups (handle scorer e r s) = lookups (handle scorer e' r s')
     | _ => answer (handle scorer e r s) = server_error
     end.
Proof.
  intros Hdb.
  destruct r as [| b | | r | r | r | mo yr prev]; simpl;
    unfold get_dashboard, manage_members, manage_transactions, manage_expenses,
      generate_report; rewrite ?Hdb; try (split; reflexivity).
  split.
  - unfold mp_webhook, record_payment. rewrite Hdb.
    destruct (sdk e) as [gw |]; [| reflexivity].
    destruct b as [| n]; [reflexivity |].
    destruct (is_payment_event n); [| reflexivity].
    destruct (n_data n) as [| [pid |] |]; try reflexivity.
    destruct (truthy pid); [| reflexivity].
    destruct (gw pid) as [p |]; [| reflexivity]. simpl.
    now destruct (String.eqb (p_status p) "approved").
  - intros e' s' Hsdk. symmetry in Hsdk.
    destruct (mp_webhook_answer scorer e' e b s' s Hsdk) as [-> ->]. auto.
Qed.

(** X14: every route writes only its own table: member requests leave the
    expenses alone and, unless they delete, the transactions too; expense
    requests leave members and transactions alone; transaction requests
    and webhook deliveries leave members and expenses alone; and the page,
    the dashboard and the statement write nothing. *)
Theorem routes_write_their_own_table (scorer : string -> string -> Q)
    (e : env) (r : request) (s : store) :
  let s' := after (handle scorer e r s) in
  match r with
  | api_members (members_DELETE _) => expenses s' = expenses s
  | api_members _ => expenses s' = expenses s /\ transactions s' = transactions s
  | api_expenses _ => members s' = members s /\ transactions s' = transactions s
  | api_transactions _ | POST_webhook_mercadopago _ =>
      members s' = members s /\ expenses s' = expenses s
  | GET_index | GET_api_dashboard | POST_api_report_final _ _ _ => s' = s
  end.
Proof.
  destruct r as [| b | | r | r | r | mo yr prev]; simpl.
  - reflexivity.
  - destruct (mp_webhook_appends_pending scorer e b s) as (_ & _ & _ & H1 & H2 & _).
    auto.
  - apply read_only_dashboard.
  - unfold manage_members. destruct (db_up e); [| destruct r; auto].
    destruct r as [| c nm b | [[| id] |]]; simpl; auto.
    + destruct (varchar_opt 10 c) as [[c' |] |]; auto;
        destruct (varchar_opt 255 nm) as [[nm' |] |]; auto;
        destruct (nextval (members_id_seq s)); auto.
      destruct (existsb _ _); auto.
    + destruct (in_int4 id); auto.
  - unfold manage_transactions. destruct (db_up e); [| auto].
    destruct r as [| ty id | name amount ty |]; simpl; auto.
    + destruct (varchar_opt 20 ty); auto. destruct id; auto.
    + destruct (varchar_opt 255 name); auto.
      destruct (varchar_opt 20 ty); auto.
      destruct (match amount with Some c => fits_numeric_10_2 c | None => true end);
        auto.
      destruct (nextval (transactions_id_seq s)); auto.
  - unfold manage_expenses. destruct (db_up e); [| auto].
    destruct r as [| d c a dt | [[| id] |]]; simpl; auto.
    + destruct (varchar_opt 255 d) as [[d' |] |]; auto;
        destruct (varchar_opt 100 c); auto;
        destruct a as [a |]; simpl; auto;
        try destruct (fits_numeric_10_2 a); auto;
        destruct (nextval (expenses_id_seq s)); auto.
    + destruct (in_int4 id); auto.
  - apply read_only_report.
Qed.

(** ** Expenses *)

Lemma filter_drops_last (es : list expense) (x : expense) :
  (forall y, In y es -> e_id y <> e_id x) ->
  filter (fun y => negb (e_id y =? e_id x)) (es ++ [x]) = es.
Proof.
  intros H. rewrite filter_app. simpl. rewrite Z.eqb_refl. simpl.
  rewrite app_nil_r. now apply (filter_absent e_id).
Qed.

(** X15: on a store the application can reach and whose sequence still
    has an id, saving an expense whose description and category fit their
    columns and then deleting the id it was given restores the expenses
    exactly, and the id is the next value of the sequence. *)
Theorem expense_saved_then_deleted (scorer : string -> string -> Q)
    (trace : list (env * request)) (e1 e2 : env)
    (d d' : string) (c c' : option string) (a : Z) (dt : option date) :
  let s := run scorer trace empty_store in
  db_up e1 = true -> db_up e2 = true -> fits_numeric_10_2 a = true ->
  varchar 255 d = Some d' -> varchar_opt 100 c = Some c' ->
  expenses_id_seq s < int4_max ->
  let s1 := after (manage_expenses e1 (expenses_POST (Some d) c (Some a) dt) s) in
  expenses s1 = (expenses s ++ [mkExpense (expenses_id_seq s + 1) d' c' a dt])%list
  /\ expenses (after (manage_expenses e2
                        (expenses_DELETE (Some (integer (expenses_id_seq s + 1)))) s1))
     = expenses s.
Proof.
  intros s H1 H2 Hfit Hd Hc Hseq.
  destruct (run_ids_in_range scorer trace) as (_ & _ & Hrange & Hle). fold s in Hrange, Hle.
  assert (Hid : in_int4 (expenses_id_seq s + 1) = true).
  { apply (int4_max_in_range _ (expenses_id_seq s + 1)); lia. }
  assert (Hd' : varchar_opt 255 (Some d) = Some (Some d'))
    by (unfold varchar_opt; now rewrite Hd).
  unfold manage_expenses. rewrite H1, H2, Hd', Hc, Hfit, (nextval_ready _ Hseq), Hid.
  simpl. split; [reflexivity |].
  apply (filter_drops_last (expenses s) (mkExpense (expenses_id_seq s + 1) d' c' a dt)).
  intros y Hy. simpl. specialize (Hle y Hy). lia.
Qed.

Lemma delete_lowers_outflow (today : date) (es : list expense) (x : expense) :
  NoDup (map e_id es) -> In x es ->
  option_map month (e_expense_date x) = Some (month today) ->
  sum_amounts (map (fun y => Some (e_amount y))
                   (filter (dashboard_outflow_row today)
                           (filter (fun y => negb (e_id y =? e_id x)) es)))
  = sum_amounts (map (fun y => Some (e_amount y))
                     (filter (dashboard_outflow_row today) es))
    - e_amount x.
Proof.
  intros Hnd Hin Hmo.
  induction es as [| y es IH]; [destruct Hin |].
  simpl in Hnd. apply NoDup_cons_iff in Hnd. destruct Hnd as [Hy Hnd].
  destruct Hin as [-> | Hin].
  - assert (Hrest : filter (fun y => negb (e_id y =? e_id x)) es = es).
    { apply (filter_absent e_id). intros z Hz E. apply Hy. rewrite <- E.
      now apply in_map. }
    assert (Hrow : dashboard_outflow_row today x = true).
    { unfold dashboard_outflow_row. rewrite Hmo. simpl. apply Z.eqb_refl. }
    simpl. rewrite Z.eqb_refl. simpl. rewrite Hrest, Hrow. simpl. lia.
  - assert (Hne : e_id y <> e_id x).
    { intros E. apply Hy. rewrite E. now apply in_map. }
    simpl. destruct (Z.eqb_spec (e_id y) (e_id x)); [contradiction |]. simpl.
    destruct (dashboard_outflow_row today y); simpl; rewrite (IH Hnd Hin); lia.
Qed.

(** X16: on a store the application can reach, deleting an expense dated
    in the current month lowers the outflow of the dashboard by exactly its
    amount and leaves the inflow as it was. *)
Theorem deleting_an_expense_lowers_outflow (scorer : string -> string -> Q)
    (trace : list (env * request)) (e : env) (today : date) (x : expense) :
  let s := run scorer trace empty_store in
  db_up e = true -> In x (expenses s) ->
  option_map month (e_expense_date x) = Some (month today) ->
  let s' := after (manage_expenses e (expenses_DELETE (Some (integer (e_id x)))) s) in
  dashboard_outflow today s' = dashboard_outflow today s - e_amount x
  /\ dashboard_inflow today s' = dashboard_inflow today s.
Proof.
  intros s Hdb Hin Hmo.
  destruct (run_ids_in_range scorer trace) as (_ & _ & Hrange & Hle). fold s in Hrange, Hle.
  unfold manage_expenses.
  rewrite Hdb, (int4_max_in_range _ _ (Hle x Hin) Hrange). simpl.
  split; [| reflexivity].
  unfold dashboard_outflow. simpl. apply delete_lowers_outflow; auto.
  apply (run_keys_unique scorer trace).
Qed.

(** ** Requests that fail *)

(** X19: on every store the application can reach, each sequence lies
    between 0 and the largest [INTEGER] and every id of a member, a
    transaction or an expense lies between 1 and the last value of its
    sequence, so every stored id can be named in a [DELETE]. *)
Theorem ids_stay_in_range (scorer : string -> string -> Q)
    (trace : list (env * request)) :
  let s := run scorer trace empty_store in
  (0 <= members_id_seq s <= int4_max
   /\ 0 <= transactions_id_seq s <= int4_max
   /\ 0 <= expenses_id_seq s <= int4_max)
  /\ (forall m, In m (members s) -> 1 <= m_id m <= members_id_seq s)
  /\ (forall t, In t (transactions s) -> 1 <= t_id t <= transactions_id_seq s)
  /\ (forall x, In x (expenses s) -> 1 <= e_id x <= expenses_id_seq s)
  /\ (forall m, In m (members s) -> in_int4 (m_id m) = true)
  /\ (forall x, In x (expenses s) -> in_int4 (e_id x) = true).
Proof.
  intros s.
  destruct (run_ids_in_range scorer trace) as ((Hm & Hms) & (Ht & Hts) & (Hx & Hxs)).
  fold s in Hm, Hms, Ht, Hts, Hx, Hxs.
  refine (conj (conj Hm (conj Ht Hx)) (conj Hms (conj Hts (conj Hxs (conj _ _))))).
  - intros m Hin. apply (int4_max_in_range _ _ (Hms m Hin) Hm).
  - intros x Hin. apply (int4_max_in_range _ _ (Hxs x Hin) Hx).
Qed.

(** X20: a request answered with status 500 stores nothing: members,
    transactions and expenses are exactly as they were (a sequence may
    have advanced). *)
Theorem failed_requests_store_nothing (scorer : string -> string -> Q)
    (e : env) (r : request) (s : store) :
  code (answer (handle scorer e r s)) = 500 ->
  members (after (handle scorer e r s)) = members s
  /\ transactions (after (handle scorer e r s)) = transactions s
  /\ expenses (after (handle scorer e r s)) = expenses s.
Proof.
  destruct r as [| b | | r | r | r | mo yr prev]; simpl.
  - discriminate.
  - unfold mp_webhook. destruct (sdk e) as [gw |]; [| auto].
    destruct b as [| n]; [auto |].
    destruct (is_payment_event n); [| discriminate].
    destruct (n_data n) as [| [pid |] |]; try discriminate; [| auto].
    destruct (truthy pid); [| discriminate].
    destruct (gw pid); discriminate.
  - now rewrite read_only_dashboard.
  - unfold manage_members. destruct (db_up e); [| auto].
    destruct r as [| c nm b | [[| id] |]]; simpl; auto; try discriminate.
    + destruct (varchar_opt 10 c) as [[c' |] |]; auto;
        destruct (varchar_opt 255 nm) as [[nm' |] |]; auto;
        destruct (nextval (members_id_seq s)); auto.
      destruct (existsb _ _); [auto | discriminate].
    + destruct (in_int4 id); [discriminate | auto].
  - unfold manage_transactions. destruct (db_up e); [| auto].
    destruct r as [| ty id | name amount ty |]; simpl; try discriminate.
    + destruct (varchar_opt 20 ty); [| auto]. destruct id; discriminate.
    + destruct (varchar_opt 255 name); auto.
      destruct (varchar_opt 20 ty); auto.
      destruct (match amount with Some c => fits_numeric_10_2 c | None => true end);
        auto.
      destruct (nextval (transactions_id_seq s)); [discriminate | auto].
  - unfold manage_expenses. destruct (db_up e); [| auto].
    destruct r as [| d c a dt | [[| id] |]]; simpl; auto; try discriminate.
    + destruct (varchar_opt 255 d) as [[d' |] |]; auto;
        destruct (varchar_opt 100 c); auto;
        destruct a as [a |]; simpl; auto;
        try destruct (fits_numeric_10_2 a); auto;
        destruct (nextval (expenses_id_seq s)); auto; discriminate.
    + destruct (in_int4 id); [discriminate | auto].
  - now rewrite read_only_report.
Qed.

(** ** The further properties at concrete inputs *)

Lemma ledger_entries_are_permanent_witness :
  exists t',
    nth_error
      (transactions
         (run Demo.exact
              [ (Demo.e, api_transactions (confirm (Some "dizimo") (Some 1)));
                (Demo.e, api_members (members_DELETE (Some (integer 1)))) ]
              (run Demo.exact DemoLedger.trace empty_store)))
      0
    = Some t'
    /\ same_entry DemoLedger.payment_row t'.
Proof.
  apply (ledger_entries_are_permanent Demo.exact).
  reflexivity.
Defined.

Lemma rows_follow_their_origin_witness : well_formed_row DemoLedger.payment_row.
Proof.
  apply (rows_follow_their_origin Demo.exact DemoLedger.trace).
  left. reflexivity.
Defined.

Lemma links_point_to_one_member_witness :
  exists m, In m (members (run Demo.exact DemoLedger.trace empty_store))
            /\ m_id m = 1
            /\ forall m', In m' (members (run Demo.exact DemoLedger.trace empty_store)) ->
                          m_id m' = 1 -> m' = m.
Proof.
  apply (links_point_to_one_member Demo.exact DemoLedger.trace DemoLedger.payment_row 1).
  - left. reflexivity.
  - reflexivity.
Defined.

Lemma deleting_a_member_unlinks_witness :
  db_up Demo.e = true
  /\ in_int4 1 = true
  /\ List.length
       (transactions
          (after (manage_members Demo.e (members_DELETE (Some (integer 1)))
                                 (run Demo.exact DemoLedger.trace empty_store))))
     = List.length (transactions (run Demo.exact DemoLedger.trace empty_store)).
Proof.
  split; [reflexivity |]. split; [reflexivity |].
  apply (deleting_a_member_unlinks Demo.e (run Demo.exact DemoLedger.trace empty_store)
                                   1 eq_refl eq_refl).
Defined.

Lemma confirming_counts_the_amount_witness :
  dashboard_inflow (Demo.nov 4)
    (after (manage_transactions Demo.e
              (confirm (Some "dizimo") (Some (t_id DemoLedger.payment_row)))
              (run Demo.exact DemoLedger.trace empty_store)))
  = dashboard_inflow (Demo.nov 4) (run Demo.exact DemoLedger.trace empty_store)
    + amount_or_zero DemoLedger.payment_row.
Proof.
  apply (confirming_counts_the_amount Demo.exact DemoLedger.trace Demo.e (Demo.nov 4)
                                      (Some "dizimo") DemoLedger.payment_row).
  - reflexivity.
  - intros H. vm_compute in H. discriminate H.
  - left. reflexivity.
  - reflexivity.
  - reflexivity.
Defined.

Lemma manual_entry_is_counted_at_once_witness :
  dashboard_inflow (Demo.nov 4)
    (after (manage_transactions Demo.e (manual_add (Some "Maria") (Some 5000)
                                                   (Some "dizimo"))
                                empty_store))
  = dashboard_inflow (Demo.nov 4) empty_store + 5000.
Proof.
  apply (manual_entry_is_counted_at_once Demo.e (Demo.nov 4) empty_store
                                         (Some "Maria") (Some "Maria") 5000
                                         (Some "dizimo") (Some "dizimo"));
    reflexivity.
Defined.

Lemma statement_fails_on_null_amount_witness :
  generate_report Demo.e 11 2026 Py.zero DemoLedger.no_amount
  = mkOutcome DemoLedger.no_amount server_error []
  /\ code (answer (get_dashboard Demo.e DemoLedger.no_amount)) = 200.
Proof.
  apply (statement_fails_on_null_amount
           Demo.e 11 2026 Py.zero DemoLedger.no_amount
           (mkTransaction 1 None (Some "Maria") None None
                          (Some (mkTimestamp (Demo.nov 4) 0)) confirmado manual
                          (Some "oferta"))).
  - reflexivity.
  - left. reflexivity.
  - reflexivity.
  - reflexivity.
Defined.

Lemma nothing_is_stored_without_a_database_witness :
  after (handle Demo.exact (db_down Demo.e) (POST_webhook_mercadopago Demo.pay_1)
                Demo.roster)
  = Demo.roster.
Proof.
  apply (nothing_is_stored_without_a_database
           Demo.exact (db_down Demo.e) (POST_webhook_mercadopago Demo.pay_1)
           Demo.roster eq_refl).
Defined.

Lemma expense_saved_then_deleted_witness :
  expenses
    (after (manage_expenses Demo.e
              (expenses_DELETE
                 (Some (integer
                          (expenses_id_seq (run Demo.exact DemoLedger.trace empty_store)
                           + 1))))
              (after (manage_expenses Demo.e
                        (expenses_POST (Some "Agua") None (Some 8000) None)
                        (run Demo.exact DemoLedger.trace empty_store)))))
  = expenses (run Demo.exact DemoLedger.trace empty_store).
Proof.
  apply (expense_saved_then_deleted Demo.exact DemoLedger.trace Demo.e Demo.e
                                    "Agua" "Agua" None None 8000 None
                                    eq_refl eq_refl eq_refl eq_refl eq_refl eq_refl).
Defined.

Lemma deleting_an_expense_lowers_outflow_witness :
  dashboard_outflow (Demo.nov 4)
    (after (manage_expenses Demo.e
              (expenses_DELETE (Some (integer (e_id DemoLedger.bill))))
              (run Demo.exact DemoLedger.trace empty_store)))
  = dashboard_outflow (Demo.nov 4) (run Demo.exact DemoLedger.trace empty_store)
    - e_amount DemoLedger.bill.
Proof.
  apply (deleting_an_expense_lowers_outflow Demo.exact DemoLedger.trace Demo.e
                                            (Demo.nov 4) DemoLedger.bill).
  - reflexivity.
  - left. reflexivity.
  - reflexivity.
Defined.

Lemma failed_requests_store_nothing_witness :
  code (answer (handle Demo.exact Demo.e
                       (api_members (members_POST (Some "M01") None None))
                       Demo.roster))
  = 500
  /\ members (after (handle Demo.exact Demo.e
                            (api_members (members_POST (Some "M01") None None))
                            Demo.roster))
     = members Demo.roster.
Proof.
  split; [reflexivity |].
  apply (failed_requests_store_nothing
           Demo.exact Demo.e (api_members (members_POST (Some "M01") None None))
           Demo.roster eq_refl).
Defined.

(** ** A month without movements *)

Lemma sum_amounts_all_null (l : list (option Z)) :
  (forall a, In a l -> a = None) -> sum_amounts l = 0.
Proof.
  intros H. induction l as [| a l IH]; simpl; [reflexivity |].
  rewrite (H a) by now left. apply IH. intros b Hb. apply H. now right.
Qed.

(** X18: when no expense is dated in the current month and the confirmed
    transactions dated in it, if any, have no amount, the dashboard answers
    with status 200 and three zeros rather than failing on the empty
    sums. *)
Theorem empty_month_is_zero (e : env) (s : store) :
  db_up e = true ->
  (forall t, In t (transactions s) ->
             dashboard_inflow_row (CURRENT_DATE e) t = true -> t_amount t = None) ->
  (forall x, In x (expenses s) -> dashboard_outflow_row (CURRENT_DATE e) x = false) ->
  answer (get_dashboard e s) = mkResponse 200 (JDashboard 0 0 0).
Proof.
  intros Hdb Hin Hout. unfold get_dashboard. rewrite Hdb.
  assert (E1 : dashboard_inflow (CURRENT_DATE e) s = 0).
  { unfold dashboard_inflow. apply sum_amounts_all_null.
    intros a Ha. apply in_map_iff in Ha. destruct Ha as (t & <- & Ht).
    apply filter_In in Ht. now apply Hin. }
  assert (E2 : dashboard_outflow (CURRENT_DATE e) s = 0).
  { unfold dashboard_outflow. apply sum_amounts_all_null.
    intros a Ha. apply in_map_iff in Ha. destruct Ha as (x & _ & Hx).
    apply filter_In in Hx. destruct Hx as [Hx Hrow].
    rewrite (Hout x Hx) in Hrow. discriminate Hrow. }
  now rewrite E1, E2.
Qed.

Lemma empty_month_is_zero_witness :
  answer (get_dashboard Demo.e (deliver Demo.exact Demo.e Demo.pay_1 DemoLedger.no_amount))
  = mkResponse 200 (JDashboard 0 0 0).
Proof.
  apply (empty_month_is_zero Demo.e).
  - reflexivity.
  - intros t [<- | [<- | []]]; [reflexivity | discriminate].
  - intros x [].
Defined.
